(** * BalloonOrganizer: the project index, the balloon dialog, the vehicle
      assignment card and the Smart Fill configuration

    A shallow embedding of the TypeScript / Vue sources:
    - the project index store of the Electron main process
      ([getProjectIndex], [addProjectMeta], [updateProjectMeta]);
    - [nameIsUnique] of [EditBalloonDialog.vue];
    - the computed values [vehicle], [totalWeight], [capacity], [rowCount] and
      [infoMessage] of the vehicle assignment card;
    - the [v-if] guard of the Smart Fill dialog.

    JavaScript numbers that count seats are modelled as integers ([Z]);
    weights are kilograms that the source adds up, and are modelled as what
    they are, binary64 floating-point numbers ([float]), so that sums round
    as they do in the program.  A value that may be [null] or [undefined]
    keeps both cases apart ([JsValue]) because the source distinguishes
    them. *)

From Stdlib Require Import ZArith Lia String Ascii List Bool QArith PrimFloat.
From stdpp Require Import base option list strings gmap.

Import ListNotations.
Local Open Scope string_scope.
Local Open Scope Z_scope.

(** ** JavaScript array helpers used by the sources *)

Module JsArray.

Section Generic.
Context {A : Type}.

(** [Array.prototype.findIndex]: index of the first element satisfying the
    predicate, [-1] when there is none. *)
Fixpoint findIndexFrom (p : A -> bool) (l : list A) (i : Z) : Z :=
  match l with
  | [] => -1
  | x :: rest => if p x then i else findIndexFrom p rest (i + 1)
  end.

Definition findIndex (p : A -> bool) (l : list A) : Z := findIndexFrom p l 0.

(** [Array.prototype.splice (start, deleteCount, ...items)], the array after
    the call.  A negative [start] counts from the end; [start] and
    [deleteCount] are clamped as ECMAScript prescribes. *)
Definition splice (l : list A) (start deleteCount : Z) (items : list A) : list A :=
  let len := Z.of_nat (length l) in
  let actualStart :=
    if start <? 0 then Z.max (len + start) 0 else Z.min start len in
  let actualDeleteCount := Z.min (Z.max deleteCount 0) (len - actualStart) in
  take (Z.to_nat actualStart) l ++ items
    ++ drop (Z.to_nat (actualStart + actualDeleteCount)) l.

(** [Array.prototype.push] of one element, the array after the call. *)
Definition push (l : list A) (x : A) : list A := l ++ [x].

(** [Array.prototype.some] *)
Definition some (p : A -> bool) (l : list A) : bool := existsb p l.

(** [Array.prototype.includes] *)
Definition includes `{EqDecision A} (l : list A) (x : A) : bool :=
  bool_decide (x ∈ l).
End Generic.

End JsArray.

(** ** The project index (Electron main process) *)

Module ProjectIndex.
Import JsArray.

Record RawProjectMeta := {
  raw_id : string;
  raw_name : string;
  raw_description : string;
  raw_createdAt : string;
  raw_filePath : string
}.

Record ProjectMeta := {
  meta_id : string;
  meta_name : string;
  meta_description : string;
  meta_createdAt : string;
  meta_filePath : string;
  meta_isInternal : bool
}.

(** The [projects-index] store: the key [metas] may be absent. *)
Record IndexStore := { metas : option (list ProjectMeta) }.

(** How a call ends: it returns, or it throws an [Error] with a message. *)
Inductive Completion :=
| Returns
| Throws (message : string).

(** [app.getPath('userData')], [path.sep] and [path.normalize] come from
    Electron and Node. *)
Record Platform := {
  userData : string;
  sep : string;
  normalize : string -> string
}.

(** [indexStore.get('metas', [])] *)
Definition getProjectIndex (st : IndexStore) : list ProjectMeta :=
  default [] (metas st).

(** [indexStore.set('metas', metas)] *)
Definition setMetas (ms : list ProjectMeta) (st : IndexStore) : IndexStore :=
  {| metas := Some ms |}.

(** The callback [(m) => m.id === id] *)
Definition sameId (i : string) (m : ProjectMeta) : bool :=
  bool_decide (meta_id m = i).

Section WithPlatform.
Variable platform : Platform.

Definition isPathInternal (filePath : string) : bool :=
  let normalizedUserData :=
    normalize platform (userData platform ++ sep platform) in
  let normalizedFile := normalize platform filePath in
  String.prefix normalizedUserData normalizedFile.

Definition buildMeta (meta : RawProjectMeta) : ProjectMeta :=
  {| meta_id := raw_id meta;
     meta_name := raw_name meta;
     meta_description := raw_description meta;
     meta_createdAt := raw_createdAt meta;
     meta_filePath := raw_filePath meta;
     meta_isInternal := isPathInternal (raw_filePath meta) |}.

Definition addProjectMeta (meta : RawProjectMeta) (st : IndexStore)
  : Completion * IndexStore :=
  let metas := getProjectIndex st in
  if negb (findIndex (sameId (raw_id meta)) metas =? -1) then
    (Throws ("Project with id " ++ raw_id meta ++ " already exists"), st)
  else
    let metas := push metas (buildMeta meta) in
    (Returns, setMetas metas st).

Definition updateProjectMeta (meta : RawProjectMeta) (st : IndexStore)
  : Completion * IndexStore :=
  let metas := getProjectIndex st in
  let metas :=
    splice metas (findIndex (sameId (raw_id meta)) metas) 1 [buildMeta meta] in
  (Returns, setMetas metas st).

Definition removeProjectMeta (id : string) (st : IndexStore)
  : Completion * IndexStore :=
  let metas := filter (fun m => meta_id m ≠ id) (getProjectIndex st) in
  (Returns, setMetas metas st).

(** [None] is the thrown "Project with id ... not found". *)
Definition projectFilePath (id : string) (st : IndexStore) : option string :=
  match list_find (fun m => meta_id m = id) (getProjectIndex st) with
  | Some (_, meta) =>
      if bool_decide (meta_filePath meta = "") then None
      else Some (meta_filePath meta)
  | None => None
  end.
End WithPlatform.

End ProjectIndex.

(** ** JavaScript string helpers, on ASCII strings *)

Module JsString.

(** White space removed by [String.prototype.trim], ASCII part: TAB, LF, VT,
    FF, CR and SPACE. *)
Definition isWhiteSpace (c : ascii) : bool :=
  let n := nat_of_ascii c in
  ((9 <=? n)%nat && (n <=? 13)%nat) || (n =? 32)%nat.

Fixpoint trimStart (s : string) : string :=
  match s with
  | EmptyString => EmptyString
  | String c rest => if isWhiteSpace c then trimStart rest else s
  end.

Fixpoint trimEnd (s : string) : string :=
  match s with
  | EmptyString => EmptyString
  | String c rest =>
      match trimEnd rest with
      | EmptyString => if isWhiteSpace c then EmptyString else String c EmptyString
      | kept => String c kept
      end
  end.

Definition trim (s : string) : string := trimEnd (trimStart s).

Definition lowerChar (c : ascii) : ascii :=
  let n := nat_of_ascii c in
  if (65 <=? n)%nat && (n <=? 90)%nat then ascii_of_nat (n + 32) else c.

Fixpoint toLowerCase (s : string) : string :=
  match s with
  | EmptyString => EmptyString
  | String c rest => String (lowerChar c) (toLowerCase rest)
  end.

End JsString.

(** ** Entities shared by the dialogs and the assignment card *)

Module Entities.

(** A JavaScript number that may also be [undefined] or [null]; [A] is
    the type the number is modelled in. *)
Inductive JsValue (A : Type) :=
| JsUndefined
| JsNull
| JsNum (a : A).
Arguments JsUndefined {A}.
Arguments JsNull {A}.
Arguments JsNum {A} a.

(** A count, or a number of which only sign and truthiness are used. *)
Abbreviation JsNumber := (JsValue Z).

(** A weight in kilograms: a binary64 number. *)
Abbreviation JsWeight := (JsValue float).

(** [x ?? d] *)
Definition nullish {A : Type} (x : JsValue A) (d : A) : A :=
  match x with
  | JsNum z => z
  | JsUndefined | JsNull => d
  end.

(** [x !== null] *)
Definition notNull {A : Type} (x : JsValue A) : bool :=
  match x with
  | JsNull => false
  | JsUndefined | JsNum _ => true
  end.

(** [n > x] for a number [n]: [undefined] converts to NaN and compares
    false; [null] converts to 0. *)
Definition gtJs (n : float) (x : JsWeight) : bool :=
  match x with
  | JsNum z => PrimFloat.ltb z n
  | JsNull => PrimFloat.ltb 0%float n
  | JsUndefined => false
  end.

Record Person := {
  person_id : string;
  person_name : string;
  person_weight : JsWeight
}.

Inductive VehicleType := balloon_type | car_type.

#[export] Instance VehicleType_eq_dec : EqDecision VehicleType.
Proof. solve_decision. Defined.

(** [Vehicle = Balloon | Car]; a car has no [maxWeight] ([JsUndefined]). *)
Record Vehicle := {
  vehicle_id : string;
  vehicle_type : VehicleType;
  vehicle_name : string;
  maxCapacity : Z;
  maxWeight : JsWeight;
  allowedOperatorIds : list string
}.

Record VehicleAssignment := {
  assignment_id : string;
  operatorId : option string;
  passengerIds : list string
}.

Record VehicleGroup := {
  balloon : VehicleAssignment;
  cars : list VehicleAssignment
}.

End Entities.

(** ** [EditBalloonDialog.vue] *)

Module EditBalloonDialog.
Import JsArray JsString Entities.

Section Props.
(** The props [balloon?] and [existingNames?]; [None] is [undefined]. *)
Variable balloon : option Vehicle.
Variable existingNames : option (list string).

Definition nameIsUnique (name : string) : bool :=
  let name := toLowerCase (trim name) in
  if match balloon with
     | Some b => bool_decide (name = toLowerCase (vehicle_name b))
     | None => false
     end
  then true
  else
    negb match existingNames with
         | Some names =>
             some (fun existingName => bool_decide (toLowerCase existingName = name)) names
         | None => false
         end.
End Props.

End EditBalloonDialog.

(** ** The vehicle assignment card: [vehicle], [totalWeight], [capacity],
       [rowCount], [infoMessage] *)

Module VehicleCard.
Import JsArray Entities.

(** What the card reads from the flight and settings stores. *)
Record Stores := {
  balloonMap : gmap string Vehicle;
  carMap : gmap string Vehicle;
  personMap : gmap string Person;
  personDefaultWeight : JsWeight
}.

Record InfoMessage := { message : string; color : string }.

#[export] Instance InfoMessage_eq_dec : EqDecision InfoMessage.
Proof. solve_decision. Defined.

Definition tooManyPassengers : InfoMessage :=
  {| message := "Too many passengers for this vehicle."; color := "negative" |}.

Definition operatorNotAllowed : InfoMessage :=
  {| message := "This operator is not allowed for this vehicle."; color := "negative" |}.

Definition weightExceeded : InfoMessage :=
  {| message := "Total weight exceeds maximum weight."; color := "warning" |}.

(** The property key of [personMap.value[assignment.operatorId]]: a [null]
    operator is looked up under the key ["null"]. *)
Definition propertyKey (k : option string) : string := default "null" k.

(** [person?.weight ?? fallback] *)
Definition weightOf (fallback : float) (person : option Person) : float :=
  match person with
  | Some p => nullish (person_weight p) fallback
  | None => fallback
  end.

Section Card.
Variable stores : Stores.
(** [remainingCapacity] of [useFlightUtils] (imported composable). *)
Variable remainingCapacity : VehicleGroup -> gmap string Z.
(** The component's [hideEmptyCapacity] ref; the source initialises it to
    [false] and never assigns it. *)
Variable hideEmptyCapacity : bool.
(** The props [group] and [assignment]. *)
Variable group : VehicleGroup.
Variable assignment : VehicleAssignment.

(** [None] is [undefined]: the assignment's id is in neither map. *)
Definition vehicle : option Vehicle :=
  match carMap stores !! assignment_id assignment with
  | Some car => Some car
  | None => balloonMap stores !! assignment_id assignment
  end.

Definition totalWeight : float :=
  let fallback := nullish (personDefaultWeight stores) 0%float in
  fold_left
    (fun acc person => PrimFloat.add acc (weightOf fallback person))
    (map (fun id => personMap stores !! id) (passengerIds assignment))
    (weightOf fallback (personMap stores !! propertyKey (operatorId assignment))).

(** [None]: reading [vehicle.value.maxCapacity] of [undefined] throws. *)
Definition capacity : option Z :=
  v ← vehicle;
  let capacity := maxCapacity v in
  let capacity :=
    if bool_decide (vehicle_type v = car_type)
    then default 0 (remainingCapacity group !! assignment_id assignment)
    else capacity in
  let capacity := if capacity <? 0 then 0 else capacity in
  Some (if hideEmptyCapacity
        then Z.of_nat (length (passengerIds assignment))
        else capacity).

Definition rowCount : option Z :=
  c ← capacity;
  Some (Z.max c (Z.of_nat (length (passengerIds assignment)) + 1)).

(** The outer [None] is a thrown TypeError, the inner one is [null]. *)
Definition infoMessage : option (option InfoMessage) :=
  c ← capacity;
  if c - 1 <? Z.of_nat (length (passengerIds assignment)) then
    Some (Some tooManyPassengers)
  else
    v ← vehicle;
    if match operatorId assignment with
       | Some op => negb (includes (allowedOperatorIds v) op)
       | None => false
       end
    then Some (Some operatorNotAllowed)
    else if bool_decide (vehicle_type v = balloon_type)
            && notNull (maxWeight v)
            && gtJs totalWeight (maxWeight v)
    then Some (Some weightExceeded)
    else Some None.

(** The passenger cell of row [c] is flagged ([:error="c > capacity - 1"]). *)
Definition cellError (c : Z) : option bool :=
  cap ← capacity;
  Some (cap - 1 <? c).
End Card.

End VehicleCard.

(** ** The Smart Fill dialog *)

Module SmartFillDialog.

Inductive FlightLeg := first_leg | second_leg.

(** [SmartFillOptions]; every field but [leg] may be left unset ([None]),
    and [leg] may be [null] ([None]). *)
Record SmartFillOptions := {
  leg : option FlightLeg;
  wPassengerFairness : option Q;
  wSecondLegFairness : option Q;
  wPilotFairness : option Q;
  wVehicleRotation : option Q;
  wNationalityDiversity : option Q;
  timeLimit : option Q
}.

(** [reactive<SmartFillOptions>({ leg: null })] *)
Definition initialOptions : SmartFillOptions :=
  {| leg := None;
     wPassengerFairness := None;
     wSecondLegFairness := None;
     wPilotFairness := None;
     wVehicleRotation := None;
     wNationalityDiversity := None;
     timeLimit := None |}.

(** [flightLegOptions]: label and emitted value. *)
Definition flightLegOptions : list (string * option FlightLeg) :=
  [("None", None); ("First", Some first_leg); ("Second", Some second_leg)].

(** The guard [v-if="options.leg != null"] of the input
    "Second Leg Fairness Weight". *)
Definition showsSecondLegFairnessInput (options : SmartFillOptions) : bool :=
  match leg options with
  | Some _ => true
  | None => false
  end.

End SmartFillDialog.

(** ** The total weight as the specification words it *)

Module StatedWeight.
Import Entities VehicleCard.

(** The total "the operator's weight plus the sum of passenger weights,
    substituting the configured default weight for every person with unset
    weight", taken at its word: an assignment without operator has no
    operator whose weight could be added.  Compared with [totalWeight] of
    the source below. *)
Definition statedTotalWeight (stores : Stores) (a : VehicleAssignment) : float :=
  let fallback := nullish (personDefaultWeight stores) 0%float in
  let weight id := weightOf fallback (personMap stores !! id) in
  fold_left (fun acc id => PrimFloat.add acc (weight id)) (passengerIds a)
    match operatorId a with
    | Some op => weight op
    | None => 0%float
    end.

End StatedWeight.

(** ** The Smart Fill solver boundary *)

Module Solver.
Import SmartFillDialog.
Local Open Scope Q_scope.

Inductive SolverError :=
| InvalidConfiguration
| Infeasible
| Cancelled
| SolverFault.

(** What the search engine can end with; it has no way to report a
    configuration error. *)
Inductive SearchOutcome (Plan : Type) :=
| BestFound (plan : Plan)
| NoFeasibleSeed
| CancelledWithoutPlan
| InvariantViolated.
Arguments BestFound {Plan} plan.
Arguments NoFeasibleSeed {Plan}.
Arguments CancelledWithoutPlan {Plan}.
Arguments InvariantViolated {Plan}.

Record SearchRun (Plan : Type) := {
  outcome : SearchOutcome Plan;
  iterations : nat
}.
Arguments outcome {Plan} _.
Arguments iterations {Plan} _.

Record ProblemInstance (VehicleSlot Person : Type) := {
  vehicleSlots : list VehicleSlot;
  people : list Person
}.
Arguments vehicleSlots {VehicleSlot Person} _.
Arguments people {VehicleSlot Person} _.

(** The run as the caller observes it: the typed result, the number of
    search iterations that ran, and the live flight state afterwards. *)
Record Run (Plan LiveState : Type) := {
  result : Plan + SolverError;
  searchIterations : nat;
  liveState : LiveState
}.
Arguments result {Plan LiveState} _.
Arguments searchIterations {Plan LiveState} _.
Arguments liveState {Plan LiveState} _.

(** A weight or time limit that is set and negative. *)
Definition isNegative (w : option Q) : bool :=
  match w with
  | Some q => negb (Qle_bool 0 q)
  | None => false
  end.

(** A time limit that is set and not positive. *)
Definition isNonPositive (t : option Q) : bool :=
  match t with
  | Some q => Qle_bool q 0
  | None => false
  end.

Definition weights (o : SmartFillOptions) : list (option Q) :=
  [wPassengerFairness o; wSecondLegFairness o; wPilotFairness o;
   wVehicleRotation o; wNationalityDiversity o].

Section Boundary.
Variables VehicleSlot Person Plan LiveState CancellationToken : Type.

(** Modelled from the spec: the value the evaluator uses for a weight; the
    spec leaves open what an unset weight counts as. *)
Variable weightValue : option Q -> Q.

(** Modelled from the spec: the Search Engine (seeding and improving),
    which is not among the sources and whose schedule the spec leaves
    open. *)
Variable search :
  SmartFillOptions -> ProblemInstance VehicleSlot Person -> CancellationToken ->
  SearchRun Plan.

(** Modelled from the spec: the second-leg fairness term of the Objective
    Evaluator (not among the sources), "weight × sub-score", "ignored (zero
    contribution) when [options.leg] is explicitly set to a single leg". *)
Definition secondLegFairnessTerm (o : SmartFillOptions) (subScore : Q) : Q :=
  match leg o with
  | None => weightValue (wSecondLegFairness o) * subScore
  | Some _ => 0
  end.

(** Modelled from the spec: the options are malformed "if
    [options.timeLimit ≤ 0], if any weight is negative, or if the vehicle set
    is empty". *)
Definition malformed (o : SmartFillOptions)
    (instance : ProblemInstance VehicleSlot Person) : bool :=
  isNonPositive (timeLimit o)
  || existsb isNegative (weights o)
  || bool_decide (vehicleSlots instance = []).

Definition resultOf (r : SearchOutcome Plan) : Plan + SolverError :=
  match r with
  | BestFound plan => inl plan
  | NoFeasibleSeed => inr Infeasible
  | CancelledWithoutPlan => inr Cancelled
  | InvariantViolated => inr SolverFault
  end.

(** Modelled from the spec: [runSmartFill (options, problemInstanceSnapshot,
    cancellationToken)] of the solver API, which is not among the sources.
    It "fails fast before any search starts" on malformed options, otherwise
    runs the search; it "does not persist state itself". *)
Definition runSmartFill (o : SmartFillOptions)
    (instance : ProblemInstance VehicleSlot Person)
    (token : CancellationToken) (live : LiveState) : Run Plan LiveState :=
  if malformed o instance then
    {| result := inr InvalidConfiguration; searchIterations := 0%nat; liveState := live |}
  else
    let r := search o instance token in
    {| result := resultOf (outcome r);
       searchIterations := iterations r;
       liveState := live |}.
End Boundary.

Arguments malformed {VehicleSlot Person} o instance.
Arguments resultOf {Plan} r.
Arguments runSmartFill {VehicleSlot Person Plan LiveState CancellationToken}
  search o instance token live.

End Solver.

(** ** Concrete data used to exercise the definitions *)

Module ProjectIndexData.
Import JsArray ProjectIndex.

Definition posix : Platform :=
  {| userData := "/home/camp/.config/balloon-organizer";
     sep := "/";
     normalize := fun p => p |}.

Definition raw (i n path : string) : RawProjectMeta :=
  {| raw_id := i; raw_name := n; raw_description := "";
     raw_createdAt := "2025-05-01"; raw_filePath := path |}.

Definition summer : RawProjectMeta :=
  raw "p1" "Summer camp" "/home/camp/.config/balloon-organizer/p1.json".
Definition autumn : RawProjectMeta :=
  raw "p2" "Autumn camp" "/srv/share/p2.json".
Definition autumnRenamed : RawProjectMeta :=
  raw "p2" "Autumn camp 2025" "/srv/share/p2.json".
Definition winter : RawProjectMeta :=
  raw "p3" "Winter camp" "/srv/share/p3.json".

Definition twoProjects : IndexStore :=
  {| metas := Some [buildMeta posix summer; buildMeta posix autumn] |}.

End ProjectIndexData.

Module DialogData.
Import Entities.

Definition alpha : Vehicle :=
  {| vehicle_id := "b1"; vehicle_type := balloon_type; vehicle_name := "Alpha";
     maxCapacity := 4; maxWeight := JsNum 300%float;
     allowedOperatorIds := ["anna"; "ben"] |}.

Definition padded : Vehicle :=
  {| vehicle_id := "b2"; vehicle_type := balloon_type; vehicle_name := " Alpha";
     maxCapacity := 4; maxWeight := JsUndefined;
     allowedOperatorIds := [] |}.

Definition balloonNames : list string := ["Alpha"; "Bravo"].

End DialogData.

Module CardData.
Import Entities VehicleCard DialogData.

Definition tiny : Vehicle :=
  {| vehicle_id := "b2"; vehicle_type := balloon_type; vehicle_name := "Tiny";
     maxCapacity := 2; maxWeight := JsUndefined;
     allowedOperatorIds := ["anna"] |}.

Definition van : Vehicle :=
  {| vehicle_id := "c1"; vehicle_type := car_type; vehicle_name := "Van";
     maxCapacity := 3; maxWeight := JsUndefined;
     allowedOperatorIds := ["cleo"] |}.

Definition person (i : string) (w : JsWeight) : Person :=
  {| person_id := i; person_name := i; person_weight := w |}.

Definition camp : Stores :=
  {| balloonMap := {[ "b1" := alpha; "b2" := tiny ]};
     carMap := {[ "c1" := van ]};
     personMap :=
       {[ "anna" := person "anna" (JsNum 70%float);
          "ben" := person "ben" JsNull;
          "cleo" := person "cleo" JsUndefined;
          "dan" := person "dan" (JsNum 95%float);
          "eve" := person "eve" (JsNum 60%float);
          "finn" := person "finn" (JsNum 90%float);
          "zoe" := person "zoe" (JsNum 80%float) ]};
     personDefaultWeight := JsNum 80%float |}.

Definition seat (i : string) (op : option string) (ps : list string)
  : VehicleAssignment :=
  {| assignment_id := i; operatorId := op; passengerIds := ps |}.

(** Alpha (capacity 4, at most 300 kg): full, eligible pilot, 315 kg. *)
Definition alphaHeavy : VehicleAssignment :=
  seat "b1" (Some "anna") ["dan"; "eve"; "finn"].

(** Alpha with a pilot of unset weight and two passengers: 80 + 95 + 60. *)
Definition alphaLight : VehicleAssignment :=
  seat "b1" (Some "ben") ["dan"; "eve"].

(** Alpha with four passengers: one more than the three passenger seats. *)
Definition alphaCrowded : VehicleAssignment :=
  seat "b1" (Some "anna") ["ben"; "dan"; "eve"; "finn"].

(** Tiny (capacity 2) with two passengers and a pilot who is not allowed. *)
Definition tinyTwoPassengers : VehicleAssignment :=
  seat "b2" (Some "zoe") ["dan"; "eve"].

(** Tiny with one passenger and a pilot who is not allowed. *)
Definition tinyWrongPilot : VehicleAssignment :=
  seat "b2" (Some "zoe") ["dan"].

(** Tiny without a pilot. *)
Definition tinyNoPilot : VehicleAssignment :=
  seat "b2" None ["dan"].

Definition vanSeats : VehicleAssignment :=
  seat "c1" (Some "cleo") ["zoe"].

Definition alphaGroup : VehicleGroup :=
  {| balloon := alphaLight; cars := [vanSeats] |}.

Definition tinyGroup : VehicleGroup :=
  {| balloon := tinyNoPilot; cars := [] |}.

(** A [remainingCapacity] result that leaves the van four seats. *)
Definition fourLeft (g : VehicleGroup) : gmap string Z := {[ "c1" := 4 ]}.

End CardData.

Module SolverData.
Import SmartFillDialog Solver.

(** [timeLimit = -1], everything else unset. *)
Definition negativeTimeLimit : SmartFillOptions :=
  {| leg := None;
     wPassengerFairness := None;
     wSecondLegFairness := None;
     wPilotFairness := None;
     wVehicleRotation := None;
     wNationalityDiversity := None;
     timeLimit := Some (-1)%Q |}.

(** Two seconds, all weights 1, second leg only. *)
Definition secondLegOnly : SmartFillOptions :=
  {| leg := Some second_leg;
     wPassengerFairness := Some 1%Q;
     wSecondLegFairness := Some 1%Q;
     wPilotFairness := Some 1%Q;
     wVehicleRotation := Some 1%Q;
     wNationalityDiversity := Some 1%Q;
     timeLimit := Some 2%Q |}.

Definition threeSlots : ProblemInstance string string :=
  {| vehicleSlots := ["b1"; "b2"; "c1"]; people := ["dan"; "eve"] |}.

(** A search that always reports the same plan after 1000 iterations. *)
Definition fixedSearch (o : SmartFillOptions) (i : ProblemInstance string string)
    (token : unit) : SearchRun (list string) :=
  {| outcome := BestFound ["dan"; "eve"]; iterations := 1000 |}.

(** An unset weight counts as 1. *)
Definition unsetIsOne (w : option Q) : Q := default 1%Q w.

End SolverData.

(** ** [Array.prototype.sort] / [toSorted] with a comparator *)

Module JsSort.

Section Sort.
Context {A : Type}.
(** The comparator: a negative result puts its first argument first, a
    positive one its second, 0 keeps the order the two elements had. *)
Variable compareFn : A -> A -> Z.

(** Places [x], which preceded every element of [l], into the sorted [l]:
    in front of the first element it does not have to follow. *)
Fixpoint insertSorted (x : A) (l : list A) : list A :=
  match l with
  | [] => [x]
  | y :: rest =>
      if compareFn x y <=? 0 then x :: l else y :: insertSorted x rest
  end.

(** The sorted copy; the sort is stable, as ECMAScript requires. *)
Definition sort (l : list A) : list A := foldr insertSorted [] l.
End Sort.

End JsSort.

(** ** The form of [EditBalloonDialog.vue]: rules, operator options,
       submit *)

Module EditBalloonForm.
Import JsArray JsString JsSort Entities.

(** What a validation rule returns: [true], or the message to show. *)
Inductive RuleResult :=
| Valid
| Invalid (message : string).

(** [!!val] for a number that may be unset: 0 is falsy. *)
Definition truthy (x : JsNumber) : bool :=
  match x with
  | JsNum z => negb (z =? 0)
  | JsUndefined | JsNull => false
  end.

(** [val > 0] *)
Definition positive (x : JsNumber) : bool :=
  match x with
  | JsNum z => 0 <? z
  | JsUndefined | JsNull => false
  end.

(** [(!!val && val.length > 0) || 'Name is required.'] *)
Definition nameRequired (val : option string) : RuleResult :=
  if match val with
     | Some s => negb (bool_decide (s = "")) && (0 <? Z.of_nat (String.length s))
     | None => false
     end
  then Valid else Invalid "Name is required.".

(** [(!!val && val > 0) || 'Maximum Capacity is required.'] *)
Definition maxCapacityRequired (val : JsNumber) : RuleResult :=
  if truthy val && positive val then Valid
  else Invalid "Maximum Capacity is required.".

(** [!val || val > 0 || 'Max weight must be greater than 0.'] *)
Definition maxWeightPositive (val : JsNumber) : RuleResult :=
  if negb (truthy val) || positive val then Valid
  else Invalid "Max weight must be greater than 0.".

(** A person of the roster: the fields of [Entities.Person] and the role. *)
Record RosterPerson := {
  person : Person;
  role : string
}.

Record QSelectOption := { label : string; value : string }.

Inductive Mode := create | edit.

(** [Omit<Balloon, 'id'>] as [onSubmit] builds it. *)
Record BalloonPayload := {
  payload_type : VehicleType;
  payload_name : string;
  payload_maxCapacity : JsNumber;
  payload_maxWeight : JsNumber;
  payload_allowedOperatorIds : list string
}.

(** [x ?? undefined] *)
Definition orUndefined (x : JsNumber) : JsNumber :=
  match x with
  | JsNull => JsUndefined
  | other => other
  end.

(** [String.prototype.indexOf], [-1] when the needle does not occur. *)
Definition indexOf (s needle : string) : Z :=
  match String.index 0 needle s with
  | Some n => Z.of_nat n
  | None => -1
  end.

Section Dialog.
(** [String.prototype.localeCompare] of the running locale. *)
Variable localeCompare : string -> string -> Z.
(** The props. *)
Variable people : list RosterPerson.
Variable balloon : option Vehicle.

Definition operatorOptions : list QSelectOption :=
  map (fun p => {| label := person_name (person p); value := person_id (person p) |})
    (sort (fun a b => localeCompare (person_name (person a)) (person_name (person b)))
       (filter (fun p => role p = "counselor") people)).

Definition mode : Mode :=
  match balloon with
  | Some _ => edit
  | None => create
  end.

(** The new [filterOptions.value]. *)
Definition filterFn (val : string) : list QSelectOption :=
  let needle := toLowerCase val in
  filter (fun o => -1 < indexOf (toLowerCase (label o)) needle) operatorOptions.

(** The payload passed to [onDialogOK]; [None] when [name] is still
    [undefined] and [.trim()] throws. *)
Definition onSubmit (name : option string) (maxCapacity maxWeight : JsNumber)
    (allowedOperatorIds : list string) : option BalloonPayload :=
  n ← name;
  Some {| payload_type := balloon_type;
          payload_name := trim n;
          payload_maxCapacity := maxCapacity;
          payload_maxWeight := orUndefined maxWeight;
          payload_allowedOperatorIds := allowedOperatorIds |}.
End Dialog.

End EditBalloonForm.

(** ** [DropZone.vue] *)

Module DropZone.

(** What a handler did besides updating [highlighted]. *)
Record Effects (Identifiable : Type) := {
  preventedDefault : bool;
  dropped : option Identifiable
}.
Arguments preventedDefault {Identifiable} _.
Arguments dropped {Identifiable} _.

Inductive DragEventKind := dragenter | dragover | dragleave | drop.

Section Zone.
Variables Identifiable DragEvent : Type.
(** The prop [accepted] (by default [() => true]). *)
Variable accepted : Identifiable -> bool.
(** [DragHelper.verifyDrop] of [src/util/DragHelper]. *)
Variable verifyDrop : DragEvent -> bool.

(** [element] is [DragHelper.element] when the handler runs. *)
Definition isAccepted (element : option Identifiable) : bool :=
  match element with
  | Some e => accepted e
  | None => false
  end.

Definition onDragEnter (element : option Identifiable) (highlighted : bool)
  : bool * Effects Identifiable :=
  if negb (isAccepted element) then
    (highlighted, {| preventedDefault := false; dropped := None |})
  else
    (true, {| preventedDefault := true; dropped := None |}).

Definition onDragOver (element : option Identifiable) (highlighted : bool)
  : bool * Effects Identifiable :=
  if negb (isAccepted element) then
    (highlighted, {| preventedDefault := false; dropped := None |})
  else
    (true, {| preventedDefault := true; dropped := None |}).

Definition onDragLeave (highlighted : bool) : bool * Effects Identifiable :=
  (false, {| preventedDefault := true; dropped := None |}).

Definition onDrop (element : option Identifiable) (event : DragEvent)
    (highlighted : bool) : bool * Effects Identifiable :=
  let highlighted := false in
  if negb (isAccepted element) || negb (verifyDrop event) then
    (highlighted, {| preventedDefault := false; dropped := None |})
  else
    (highlighted, {| preventedDefault := false; dropped := element |}).

(** One browser event on the zone: its kind, the event object and the
    [DragHelper.element] at that moment. *)
Record Step := {
  kind : DragEventKind;
  event : DragEvent;
  dragged : option Identifiable
}.

Definition handle (s : Step) (highlighted : bool) : bool * Effects Identifiable :=
  match kind s with
  | dragenter => onDragEnter (dragged s) highlighted
  | dragover => onDragOver (dragged s) highlighted
  | dragleave => onDragLeave highlighted
  | drop => onDrop (dragged s) (event s) highlighted
  end.

(** The zone after a sequence of events, and the effects of each. *)
Fixpoint run (steps : list Step) (highlighted : bool)
  : bool * list (Effects Identifiable) :=
  match steps with
  | [] => (highlighted, [])
  | s :: rest =>
      let '(h, e) := handle s highlighted in
      let '(h', es) := run rest h in
      (h', e :: es)
  end.
End Zone.

Arguments kind {Identifiable DragEvent} _.
Arguments event {Identifiable DragEvent} _.
Arguments dragged {Identifiable DragEvent} _.

End DropZone.

(** ** The message badge *)

Module MessageBadges.
Import JsSort.

Record MessageBadge := {
  priority : Z;
  message : string;
  textColor : string;
  bgColor : string;
  icon : string
}.

(** [[...props.messages].sort((a, b) => a.priority - b.priority).at(0)] *)
Definition priorityMessage (messages : list MessageBadge) : option MessageBadge :=
  head (sort (fun a b => priority a - priority b) messages).

(** The number the badge shows: [messages.length]. *)
Definition badgeCount (messages : list MessageBadge) : Z :=
  Z.of_nat (length messages).

End MessageBadges.

(** ** Shapes of strings used in the proofs about [trim] *)

Module JsStringShape.
Import JsString.

(** A string that is empty or starts with a character that is not white
    space. *)
Definition startsClean (s : string) : Prop :=
  match s with
  | EmptyString => True
  | String c _ => isWhiteSpace c = false
  end.

End JsStringShape.

(** ** Further concrete data *)

Module CardEdgeData.
Import Entities VehicleCard CardData.

(** A [remainingCapacity] result without any entry. *)
Definition nothingLeft (g : VehicleGroup) : gmap string Z := ∅.

(** Alpha (at most 300 kg) without operator, three passengers of 95, 90
    and 80 kg. *)
Definition alphaNoPilot : VehicleAssignment :=
  seat "b1" None ["dan"; "finn"; "zoe"].

(** The van without anybody. *)
Definition vanEmpty : VehicleAssignment := seat "c1" None [].

(** An id that is in neither map. *)
Definition ghost : VehicleAssignment := seat "b9" None [].

End CardEdgeData.

Module FormData.
Import Entities EditBalloonForm CardData.

(** A comparator that orders by character codes. *)
Definition codeCompare (a b : string) : Z :=
  match String.compare a b with
  | Lt => -1
  | Eq => 0
  | Gt => 1
  end.

Definition member (i r : string) (w : JsWeight) : RosterPerson :=
  {| EditBalloonForm.person := CardData.person i w; role := r |}.

Definition roster : list RosterPerson :=
  [member "cleo" "counselor" JsUndefined;
   member "dan" "participant" (JsNum 95%float);
   member "anna" "counselor" (JsNum 70%float);
   member "Ben" "counselor" JsNull].

End FormData.

Module ZoneData.
Import DropZone.

(** A zone that takes people only; the drag event records whether
    [verifyDrop] approves it. *)
Definition takesPeople (element : string) : bool := String.prefix "person:" element.

Definition approved (event : bool) : bool := event.

Definition step (k : DragEventKind) (ok : bool) (element : option string)
  : Step string bool :=
  {| kind := k; event := ok; dragged := element |}.

Definition carDraggedAround : list (Step string bool) :=
  [step dragenter true (Some "car:c1");
   step dragover true (Some "car:c1");
   step drop true (Some "car:c1");
   step dragleave true None].

End ZoneData.

Module BadgeData.
Import MessageBadges.

Definition badge (p : Z) (text : string) : MessageBadge :=
  {| priority := p; message := text; textColor := "white";
     bgColor := "negative"; icon := "priority_high" |}.

Definition threeMessages : list MessageBadge :=
  [badge 2 "weight"; badge 1 "capacity"; badge 1 "operator"].

End BadgeData.

(** * Properties *)

(** ** Array helpers *)

Section JsArrayFacts.
Import JsArray.
Context {A : Type}.
Implicit Types (p : A -> bool) (l : list A).

Lemma findIndexFrom_list_find p l i :
  findIndexFrom p l i =
    match list_find (fun x => p x = true) l with
    | Some (n, _) => i + Z.of_nat n
    | None => -1
    end.
Proof.
  revert i. induction l as [|x l IH]; intros i; simpl; [done|].
  destruct (p x) eqn:Hp.
  - rewrite decide_True by done. simpl. lia.
  - rewrite decide_False by done.
    rewrite IH. destruct (list_find _ l) as [[n y]|]; simpl; lia.
Qed.

Lemma findIndex_absent p l :
  findIndex p l = -1 <-> (forall x, x ∈ l -> p x = false).
Proof.
  unfold findIndex. rewrite findIndexFrom_list_find.
  destruct (list_find _ l) as [[n y]|] eqn:Hf.
  - split; [lia|]. intros Hall.
    apply list_find_Some in Hf as (Hl & Hp & _).
    apply list_elem_of_lookup_2 in Hl. rewrite (Hall _ Hl) in Hp. done.
  - split; [|done]. intros _ x Hx.
    apply list_find_None in Hf. rewrite Forall_forall in Hf.
    specialize (Hf x Hx). by destruct (p x).
Qed.

Lemma findIndex_present p l :
  findIndex p l ≠ -1 ->
  exists (n : nat) (x : A),
    findIndex p l = Z.of_nat n /\ l !! n = Some x /\ p x = true /\
    (forall (j : nat) (y : A), (j < n)%nat -> l !! j = Some y -> p y = false).
Proof.
  unfold findIndex. rewrite findIndexFrom_list_find.
  destruct (list_find _ l) as [[n y]|] eqn:Hf; [|done].
  intros _. apply list_find_Some in Hf as (Hl & Hp & Hfirst).
  exists n, y. split; [lia|]. split; [done|]. split; [done|].
  intros j z Hj Hz. specialize (Hfirst j z Hz Hj). by destruct (p z).
Qed.

Lemma splice_replace_at l (n : nat) (x : A) :
  (n < length l)%nat -> splice l (Z.of_nat n) 1 [x] = <[n:=x]> l.
Proof.
  intros Hn. unfold splice.
  assert ((Z.of_nat n <? 0) = false) as -> by lia.
  rewrite Z.min_l by lia.
  replace (Z.min (Z.max 1 0) (Z.of_nat (length l) - Z.of_nat n)) with 1 by lia.
  rewrite Nat2Z.id.
  replace (Z.to_nat (Z.of_nat n + 1)) with (S n) by lia.
  by rewrite insert_take_drop.
Qed.

Lemma splice_minus_one l (x : A) :
  splice l (-1) 1 [x] = (removelast l ++ [x])%list.
Proof.
  unfold splice.
  destruct l as [|a l]; [done|].
  remember (a :: l) as l' eqn:El.
  assert (0 < Z.of_nat (length l')) as Hlen by (subst l'; simpl; lia).
  replace (-1 <? 0) with true by done.
  rewrite Z.max_l by lia.
  replace (Z.min (Z.max 1 0) (Z.of_nat (length l') - (Z.of_nat (length l') + -1)))
    with 1 by lia.
  replace (Z.to_nat (Z.of_nat (length l') + -1)) with (pred (length l')) by lia.
  replace (Z.to_nat (Z.of_nat (length l') + -1 + 1)) with (length l') by lia.
  rewrite drop_all, app_nil_r. by rewrite removelast_firstn_len.
Qed.
End JsArrayFacts.

(** ** The project index *)

Section ProjectIndexFacts.
Import JsArray ProjectIndex.
Variable platform : Platform.

Lemma sameId_true i m : sameId i m = true <-> meta_id m = i.
Proof. unfold sameId. by rewrite bool_decide_eq_true. Qed.

Lemma sameId_false i m : sameId i m = false <-> meta_id m ≠ i.
Proof. unfold sameId. by rewrite bool_decide_eq_false. Qed.

Lemma buildMeta_id meta : meta_id (buildMeta platform meta) = raw_id meta.
Proof. done. Qed.

Lemma getProjectIndex_setMetas ms st : getProjectIndex (setMetas ms st) = ms.
Proof. done. Qed.

Lemma findIndex_sameId_absent i (ms : list ProjectMeta) :
  findIndex (sameId i) ms = -1 <-> ~ (exists m, m ∈ ms /\ meta_id m = i).
Proof.
  rewrite findIndex_absent. split.
  - intros Hall (m & Hm & Hid). apply Hall in Hm. by apply sameId_false in Hm.
  - intros Hno m Hm. apply sameId_false. intros Hid. apply Hno. by exists m.
Qed.

(** C8. [updateProjectMeta] always returns.  When the index holds an entry
    with the meta's id, the first such entry (at index [i]) is replaced in
    place by the rebuilt meta: the length, the order and every other entry
    are unchanged.  When the index holds no entry with that id, the last
    entry is dropped and the rebuilt meta is appended; the index is neither
    left as it was nor is an error raised. *)
Theorem updateProjectMeta_replaces_or_overwrites_last
    (meta : RawProjectMeta) (st : IndexStore) :
  let ms := getProjectIndex st in
  let ms' := getProjectIndex (updateProjectMeta platform meta st).2 in
  (updateProjectMeta platform meta st).1 = Returns /\
  ((exists m, m ∈ ms /\ meta_id m = raw_id meta) ->
     exists (i : nat) (old : ProjectMeta),
       ms !! i = Some old /\ meta_id old = raw_id meta /\
       (forall (j : nat) (m : ProjectMeta),
           (j < i)%nat -> ms !! j = Some m -> meta_id m ≠ raw_id meta) /\
       ms' = <[i:=buildMeta platform meta]> ms /\
       length ms' = length ms /\
       ms' !! i = Some (buildMeta platform meta) /\
       (forall j : nat, j ≠ i -> ms' !! j = ms !! j)) /\
  (~ (exists m, m ∈ ms /\ meta_id m = raw_id meta) ->
     ms' = (removelast ms ++ [buildMeta platform meta])%list /\ ms' ≠ ms).
Proof.
  intros ms ms'. split; [done|].
  subst ms'. unfold updateProjectMeta. cbn [snd].
  rewrite getProjectIndex_setMetas. fold ms. split.
  - intros Hex.
    destruct (findIndex_present (sameId (raw_id meta)) ms)
      as (i & old & Hidx & Hold & Hp & Hfirst).
    { intros Habs. by apply findIndex_sameId_absent in Habs. }
    exists i, old. rewrite Hidx.
    assert (i < length ms)%nat as Hlt by (by eapply lookup_lt_Some).
    rewrite splice_replace_at by done.
    split; [done|]. split; [by apply sameId_true|].
    split. { intros j m Hj Hm. apply sameId_false. by eapply Hfirst. }
    split; [done|]. split; [by rewrite length_insert|].
    split; [by apply list_lookup_insert_eq|].
    intros j Hj. by apply list_lookup_insert_ne.
  - intros Hno. apply findIndex_sameId_absent in Hno as Hidx. rewrite Hidx.
    rewrite splice_minus_one. split; [done|].
    intros Heq. apply Hno. exists (buildMeta platform meta). split; [|done].
    rewrite <- Heq. apply elem_of_app. right. by apply list_elem_of_singleton.
Qed.

(** C9. [addProjectMeta] throws exactly when the index already holds an
    entry with the same id; when it throws the store is the one it was
    given; when it returns, the index is the old one with the rebuilt meta
    appended, one entry longer. *)
Theorem addProjectMeta_throws_iff_duplicate
    (meta : RawProjectMeta) (st : IndexStore) :
  let ms := getProjectIndex st in
  let r := addProjectMeta platform meta st in
  ((exists msg, r.1 = Throws msg) <-> (exists m, m ∈ ms /\ meta_id m = raw_id meta)) /\
  ((exists msg, r.1 = Throws msg) -> r.2 = st) /\
  (r.1 = Returns ->
     getProjectIndex r.2 = (ms ++ [buildMeta platform meta])%list /\
     length (getProjectIndex r.2) = S (length ms)) /\
  (r.1 = Returns \/ exists msg, r.1 = Throws msg).
Proof.
  intros ms r. subst r. unfold addProjectMeta. fold ms.
  destruct (findIndex (sameId (raw_id meta)) ms =? -1) eqn:Hidx; cbn [negb fst snd].
  - apply Z.eqb_eq in Hidx. apply findIndex_sameId_absent in Hidx.
    split. { split; [by intros [msg ?]|done]. }
    split; [by intros [msg ?]|].
    split; [|by left]. intros _. rewrite getProjectIndex_setMetas.
    unfold push. split; [done|]. rewrite length_app. simpl. lia.
  - apply Z.eqb_neq in Hidx.
    assert (exists m, m ∈ ms /\ meta_id m = raw_id meta) as Hex.
    { destruct (findIndex_present _ _ Hidx) as (i & old & _ & Hold & Hp & _).
      exists old. split; [by eapply list_elem_of_lookup_2|by apply sameId_true]. }
    split. { split; [done|]. intros _. by eexists. }
    split; [done|]. split; [done|]. right. by eexists.
Qed.
End ProjectIndexFacts.

(** *** The index on a concrete store *)

(** Membership in a list given by its elements. *)
Ltac in_literal_list :=
  apply list_elem_of_In; simpl;
  repeat (first [left; reflexivity | right]).

Module ProjectIndexExamples.
Import JsArray ProjectIndex ProjectIndexData.

Example isInternal_summer : meta_isInternal (buildMeta posix summer) = true.
Proof. reflexivity. Qed.

Example isInternal_autumn : meta_isInternal (buildMeta posix autumn) = false.
Proof. reflexivity. Qed.

Example findIndex_p2 :
  findIndex (sameId "p2") (getProjectIndex twoProjects) = 1.
Proof. reflexivity. Qed.

Example findIndex_p3 :
  findIndex (sameId "p3") (getProjectIndex twoProjects) = -1.
Proof. reflexivity. Qed.

Example splice_examples :
  splice [10; 20; 30] 1 1 [99] = [10; 99; 30] /\
  splice [10; 20; 30] (-1) 1 [99] = [10; 20; 99] /\
  splice ([] : list Z) (-1) 1 [99] = [99] /\
  splice [10; 20; 30] 7 1 [99] = [10; 20; 30; 99] /\
  splice [10; 20; 30] (-5) 2 [] = [30].
Proof. repeat split. Qed.

Example update_known_project :
  updateProjectMeta posix autumnRenamed twoProjects =
    (Returns, {| metas := Some [buildMeta posix summer; buildMeta posix autumnRenamed] |}).
Proof. reflexivity. Qed.

Example update_unknown_project :
  updateProjectMeta posix winter twoProjects =
    (Returns, {| metas := Some [buildMeta posix summer; buildMeta posix winter] |}).
Proof. reflexivity. Qed.

Example update_unknown_project_empty_index :
  updateProjectMeta posix winter {| metas := None |} =
    (Returns, {| metas := Some [buildMeta posix winter] |}).
Proof. reflexivity. Qed.

Example add_duplicate_project :
  addProjectMeta posix autumnRenamed twoProjects =
    (Throws "Project with id p2 already exists", twoProjects).
Proof. reflexivity. Qed.

Example add_new_project :
  addProjectMeta posix winter twoProjects =
    (Returns,
     {| metas := Some [buildMeta posix summer; buildMeta posix autumn;
                       buildMeta posix winter] |}).
Proof. reflexivity. Qed.

(** Updating on a concrete index: [p2] is in the index, [p3] is not. *)
Lemma updateProjectMeta_witness :
  (exists (i : nat) (old : ProjectMeta),
      getProjectIndex twoProjects !! i = Some old /\
      getProjectIndex (updateProjectMeta posix autumnRenamed twoProjects).2
        = <[i:=buildMeta posix autumnRenamed]> (getProjectIndex twoProjects)) /\
  getProjectIndex (updateProjectMeta posix winter twoProjects).2
    = [buildMeta posix summer; buildMeta posix winter].
Proof.
  split.
  - destruct (updateProjectMeta_replaces_or_overwrites_last posix autumnRenamed twoProjects)
      as (_ & Hfound & _).
    destruct Hfound as (i & old & Hold & _ & _ & Heq & _).
    + exists (buildMeta posix autumn). split; [|reflexivity].
      in_literal_list.
    + exists i, old. split; [exact Hold|exact Heq].
  - destruct (updateProjectMeta_replaces_or_overwrites_last posix winter twoProjects)
      as (_ & _ & Hmissing).
    destruct Hmissing as (Heq & _).
    + intros (m & Hm & Hid). apply list_elem_of_In in Hm. simpl in Hm.
      destruct Hm as [<-|[<-|[]]]; discriminate Hid.
    + exact Heq.
Defined.

(** Adding to a concrete index: a duplicate id and a new one. *)
Lemma addProjectMeta_witness :
  (exists msg, (addProjectMeta posix autumnRenamed twoProjects).1 = Throws msg) /\
  (addProjectMeta posix autumnRenamed twoProjects).2 = twoProjects /\
  length (getProjectIndex (addProjectMeta posix winter twoProjects).2) = 3%nat.
Proof.
  destruct (addProjectMeta_throws_iff_duplicate posix autumnRenamed twoProjects)
    as (Hiff & Hsame & _).
  assert (exists msg, (addProjectMeta posix autumnRenamed twoProjects).1 = Throws msg)
    as Hthrows.
  { apply Hiff. exists (buildMeta posix autumn). split; [|reflexivity].
    in_literal_list. }
  split; [exact Hthrows|]. split; [exact (Hsame Hthrows)|].
  destruct (addProjectMeta_throws_iff_duplicate posix winter twoProjects)
    as (_ & _ & Hret & _).
  destruct Hret as (_ & Hlen); [reflexivity|exact Hlen].
Defined.

End ProjectIndexExamples.

(** ** [nameIsUnique] of the balloon dialog *)

Section NameIsUniqueFacts.
Import JsArray JsString Entities EditBalloonDialog.

Lemma some_true_iff {A : Type} (p : A -> bool) (l : list A) :
  some p l = true <-> exists x, x ∈ l /\ p x = true.
Proof.
  unfold some. rewrite existsb_exists.
  split; intros (x & Hx & Hp); exists x; (split; [by apply list_elem_of_In|done]).
Qed.

(** C10. [nameIsUnique] depends on the candidate only through its trimmed,
    lowercased form [key].  A candidate whose [key] is the lowercased name of
    the edited balloon is always accepted.  Any other candidate is rejected
    when [key] is the lowercased form of some entry of [existingNames], and
    accepted otherwise.  Without an [existingNames] list every candidate is
    accepted.  In particular the balloon's own name is accepted as it
    stands whenever it carries no surrounding white space. *)
Theorem nameIsUnique_decides_on_trimmed_lowercased_name
    (balloon : option Vehicle) (existingNames : option (list string))
    (name : string) :
  let key := toLowerCase (trim name) in
  let own := exists b, balloon = Some b /\ key = toLowerCase (vehicle_name b) in
  let taken :=
    exists names e,
      existingNames = Some names /\ e ∈ names /\ toLowerCase e = key in
  (forall other : string,
      toLowerCase (trim other) = key ->
      nameIsUnique balloon existingNames other
        = nameIsUnique balloon existingNames name) /\
  (own -> nameIsUnique balloon existingNames name = true) /\
  (~ own -> taken -> nameIsUnique balloon existingNames name = false) /\
  (~ taken -> nameIsUnique balloon existingNames name = true) /\
  (existingNames = None -> nameIsUnique balloon existingNames name = true) /\
  (forall b, balloon = Some b -> trim (vehicle_name b) = vehicle_name b ->
             nameIsUnique balloon existingNames (vehicle_name b) = true).
Proof.
  intros key own taken.
  assert (own -> nameIsUnique balloon existingNames name = true) as Hown.
  { intros (b & -> & Hb). unfold nameIsUnique. fold key.
    by rewrite bool_decide_eq_true_2. }
  assert (~ taken -> nameIsUnique balloon existingNames name = true) as Hfree.
  { intros Hfree. unfold nameIsUnique. fold key.
    destruct (match balloon with Some _ => _ | None => _ end); [done|].
    destruct existingNames as [names|]; [|done].
    apply negb_true_iff, not_true_is_false. intros Hsome.
    apply some_true_iff in Hsome as (e & He & Heq).
    apply bool_decide_eq_true in Heq. apply Hfree. by exists names, e. }
  split.
  { intros other Hother. unfold nameIsUnique. fold key. by rewrite Hother. }
  split; [done|]. split.
  { intros Hnot (names & e & -> & He & Heq). unfold nameIsUnique. fold key.
    destruct balloon as [b|].
    - rewrite bool_decide_eq_false_2.
      + apply negb_false_iff, some_true_iff. exists e.
        split; [done|by apply bool_decide_eq_true].
      + intros Hb. apply Hnot. by exists b.
    - apply negb_false_iff, some_true_iff. exists e.
      split; [done|by apply bool_decide_eq_true]. }
  split; [done|]. split.
  { intros ->. apply Hfree. by intros (names & e & ? & _). }
  intros b -> Htrim. unfold nameIsUnique. rewrite Htrim.
  by rewrite bool_decide_eq_true_2.
Qed.
End NameIsUniqueFacts.

Module NameIsUniqueExamples.
Import JsString Entities EditBalloonDialog DialogData.

Example trim_examples :
  trim "  Alpha  " = "Alpha" /\ trim "Al pha" = "Al pha" /\ trim "   " = "".
Proof. repeat split. Qed.

Example toLowerCase_example : toLowerCase "Alpha-7 Z" = "alpha-7 z".
Proof. reflexivity. Qed.

Example own_name_kept : nameIsUnique (Some alpha) (Some balloonNames) " ALPHA " = true.
Proof. reflexivity. Qed.

Example other_name_taken : nameIsUnique (Some alpha) (Some balloonNames) "bravo " = false.
Proof. reflexivity. Qed.

Example create_name_taken : nameIsUnique None (Some balloonNames) "alpha" = false.
Proof. reflexivity. Qed.

Example no_list_supplied : nameIsUnique None None "alpha" = true.
Proof. reflexivity. Qed.

(** An own name with surrounding white space is compared after trimming the
    candidate only. *)
Example padded_own_name :
  nameIsUnique (Some padded) (Some [" Alpha"; "alpha"]) " Alpha" = false.
Proof. reflexivity. Qed.

(** Editing the balloon "Alpha": its own name in another case is accepted, "bravo" is taken. *)
Lemma nameIsUnique_witness :
  nameIsUnique (Some alpha) (Some balloonNames) " ALPHA " = true /\
  nameIsUnique (Some alpha) (Some balloonNames) "bravo " = false /\
  nameIsUnique (Some alpha) None "bravo " = true.
Proof.
  split; [|split].
  - destruct (nameIsUnique_decides_on_trimmed_lowercased_name
                (Some alpha) (Some balloonNames) " ALPHA ") as (_ & Hown & _).
    apply Hown. exists alpha. split; reflexivity.
  - destruct (nameIsUnique_decides_on_trimmed_lowercased_name
                (Some alpha) (Some balloonNames) "bravo ") as (_ & _ & Htaken & _).
    apply Htaken.
    + intros (b & Hb & Hkey). injection Hb as <-. discriminate Hkey.
    + exists balloonNames, "Bravo". split; [reflexivity|]. split; [|reflexivity].
      in_literal_list.
  - destruct (nameIsUnique_decides_on_trimmed_lowercased_name
                (Some alpha) None "bravo ") as (_ & _ & _ & _ & Hnone & _).
    apply Hnone. reflexivity.
Defined.

End NameIsUniqueExamples.

(** ** The vehicle assignment card *)

Section VehicleCardFacts.
Import JsArray Entities VehicleCard.
Variable stores : Stores.
Variable remainingCapacity : VehicleGroup -> gmap string Z.
Variable hideEmptyCapacity : bool.
Variable group : VehicleGroup.
Variable assignment : VehicleAssignment.

Local Abbreviation vehicle := (vehicle stores assignment).
Local Abbreviation totalWeight := (totalWeight stores assignment).
Local Abbreviation capacity :=
  (capacity stores remainingCapacity hideEmptyCapacity group assignment).
Local Abbreviation infoMessage :=
  (infoMessage stores remainingCapacity hideEmptyCapacity group assignment).
Local Abbreviation passengerCount := (Z.of_nat (length (passengerIds assignment))).

Lemma capacity_vehicle c : capacity = Some c -> exists v, vehicle = Some v.
Proof.
  unfold VehicleCard.capacity. destruct vehicle as [v|]; [by exists v|done].
Qed.

Lemma includes_true (l : list string) (x : string) : includes l x = true <-> x ∈ l.
Proof. unfold includes. by rewrite bool_decide_eq_true. Qed.

Lemma includes_false (l : list string) (x : string) : includes l x = false <-> x ∉ l.
Proof. unfold includes. by rewrite bool_decide_eq_false. Qed.

(** [infoMessage] once [vehicle] and [capacity] are known. *)
Lemma infoMessage_unfold v c :
  vehicle = Some v -> capacity = Some c ->
  infoMessage =
    if c - 1 <? passengerCount then Some (Some tooManyPassengers)
    else if match operatorId assignment with
            | Some op => negb (includes (allowedOperatorIds v) op)
            | None => false
            end
    then Some (Some operatorNotAllowed)
    else if bool_decide (vehicle_type v = balloon_type)
            && notNull (maxWeight v) && gtJs totalWeight (maxWeight v)
    then Some (Some weightExceeded)
    else Some None.
Proof.
  intros Hv Hc. unfold VehicleCard.infoMessage. rewrite Hc. simpl.
  by rewrite Hv.
Qed.

(** C2. On a card whose [capacity] is [c], the message "Too many
    passengers" is shown exactly when the number of passengers exceeds
    [c - 1], that is, exactly when [passengers + 1 <= c] fails. *)
Theorem capacity_violation_iff_exceeds_capacity_minus_one (c : Z) :
  capacity = Some c ->
  (infoMessage = Some (Some tooManyPassengers) <-> passengerCount > c - 1) /\
  (infoMessage ≠ Some (Some tooManyPassengers) <-> passengerCount + 1 <= c).
Proof.
  intros Hc. destruct (capacity_vehicle c Hc) as [v Hv].
  rewrite (infoMessage_unfold v c Hv Hc).
  destruct (c - 1 <? passengerCount) eqn:Hcmp.
  - apply Z.ltb_lt in Hcmp. split; split; intros; try done; lia.
  - apply Z.ltb_ge in Hcmp.
    assert (forall m : option (option InfoMessage),
               m = Some (Some operatorNotAllowed) \/ m = Some (Some weightExceeded)
               \/ m = Some None -> m ≠ Some (Some tooManyPassengers)) as Hne.
    { intros m [-> | [-> | ->]]; discriminate. }
    match goal with |- context [?m = Some (Some tooManyPassengers)] =>
      assert (m ≠ Some (Some tooManyPassengers)) as Hm
    end.
    { apply Hne. repeat case_match; auto. }
    split; split; intros; try done; lia.
Qed.

(** C3 (as amended). On a card with no capacity violation (the passenger
    count does not exceed [c - 1]), the message "This operator is not
    allowed" is shown exactly when the assignment has an operator and that
    operator is not among the vehicle's allowed operators.  An assignment
    without operator never gets this message, whatever its passenger
    count. *)
Theorem eligibility_violation_iff_operator_not_allowed (v : Vehicle) (c : Z) :
  vehicle = Some v ->
  capacity = Some c ->
  (passengerCount <= c - 1 ->
   (infoMessage = Some (Some operatorNotAllowed) <->
    exists op, operatorId assignment = Some op /\ op ∉ allowedOperatorIds v)) /\
  (operatorId assignment = None -> infoMessage ≠ Some (Some operatorNotAllowed)).
Proof.
  intros Hv Hc. rewrite (infoMessage_unfold v c Hv Hc). split.
  - intros Hcap.
    assert ((c - 1 <? passengerCount) = false) as -> by lia.
    destruct (operatorId assignment) as [op|] eqn:Hop.
    + destruct (includes (allowedOperatorIds v) op) eqn:Hinc; cbn [negb].
      * apply includes_true in Hinc. split.
        -- repeat case_match; discriminate.
        -- intros (op' & [= <-] & Hnot). done.
      * apply includes_false in Hinc. split; [|done]. intros _. by exists op.
    + split.
      * repeat case_match; discriminate.
      * by intros (op & ? & _).
  - intros ->. repeat case_match; discriminate.
Qed.

Lemma fold_left_lookups (f : option Person -> float) (g : string -> option Person)
    (ids : list string) (seed : float) :
  fold_left (fun acc person => PrimFloat.add acc (f person)) (map g ids) seed
  = fold_left (fun acc id => PrimFloat.add acc (f (g id))) ids seed.
Proof.
  revert seed. induction ids as [|id ids IH]; intros seed; simpl; [done|].
  apply IH.
Qed.

(** C4 (as amended). The total weight is the weight counted for the
    operator seat, to which the passengers' weights are added one after the
    other in the order of the passengers, each addition rounding as a
    binary64 addition does.  A person whose weight is unset ([null] or
    [undefined]) counts with the configured default weight (0 when none is
    configured); so does an id that has no entry in [personMap]; and so does
    the operator seat of an assignment without operator, which is looked up
    under the key "null".  On a balloon that declares the maximum weight
    [m], with no capacity violation and no eligibility violation, the
    message "Total weight exceeds maximum weight" is shown exactly when the
    total exceeds [m]. *)
Theorem weight_violation_iff_total_exceeds_maximum (v : Vehicle) (c : Z) (m : float) :
  let fallback :=
    match personDefaultWeight stores with JsNum d => d | _ => 0%float end in
  let weight (id : string) :=
    match personMap stores !! id with
    | Some p => match person_weight p with JsNum w => w | _ => fallback end
    | None => fallback
    end in
  let seat :=
    match operatorId assignment with
    | Some op => weight op
    | None => weight "null"
    end in
  totalWeight =
    fold_left (fun acc id => PrimFloat.add acc (weight id))
      (passengerIds assignment) seat /\
  (operatorId assignment = None -> personMap stores !! "null" = None ->
   seat = fallback) /\
  (vehicle = Some v ->
   vehicle_type v = balloon_type ->
   maxWeight v = JsNum m ->
   capacity = Some c ->
   passengerCount <= c - 1 ->
   (forall op, operatorId assignment = Some op -> op ∈ allowedOperatorIds v) ->
   (infoMessage = Some (Some weightExceeded) <->
    PrimFloat.ltb m totalWeight = true)).
Proof.
  intros fallback weight seat.
  assert (forall id, weightOf (nullish (personDefaultWeight stores) 0%float)
                       (personMap stores !! id) = weight id) as Hw.
  { intros id. unfold weightOf, weight, fallback, nullish.
    destruct (personMap stores !! id) as [p|]; [|by destruct (personDefaultWeight stores)].
    destruct (person_weight p); by destruct (personDefaultWeight stores). }
  split; [|split].
  - unfold VehicleCard.totalWeight. rewrite fold_left_lookups, Hw.
    assert (weight (propertyKey (operatorId assignment)) = seat) as ->
      by (unfold seat; by destruct (operatorId assignment)).
    generalize seat. generalize (passengerIds assignment).
    induction l as [|id ids IH]; intros seed; simpl; [done|].
    by rewrite Hw, IH.
  - intros Hnone Hnull. unfold seat, weight. by rewrite Hnone, Hnull.
  - intros Hv Hty Hmax Hc Hcap Hop. rewrite (infoMessage_unfold v c Hv Hc).
    assert ((c - 1 <? passengerCount) = false) as -> by lia.
    assert (match operatorId assignment with
            | Some op => negb (includes (allowedOperatorIds v) op)
            | None => false
            end = false) as ->.
    { destruct (operatorId assignment) as [op|]; [|done].
      apply negb_false_iff, includes_true. by apply Hop. }
    rewrite Hty, Hmax. rewrite bool_decide_eq_true_2 by done. cbn [notNull gtJs andb].
    by destruct (PrimFloat.ltb m totalWeight).
Qed.

(** The car branch of [capacity]: the value read from [remainingCapacity],
    0 when the car has no entry, never negative; the car's own
    [maxCapacity] is not used. *)
Lemma capacity_car (v : Vehicle) :
  vehicle = Some v -> vehicle_type v = car_type -> hideEmptyCapacity = false ->
  capacity =
    Some (Z.max 0 (default 0 (remainingCapacity group !! assignment_id assignment))).
Proof.
  intros Hv Hty ->. unfold VehicleCard.capacity. rewrite Hv. simpl.
  rewrite Hty, bool_decide_eq_true_2 by done. f_equal.
  destruct (_ <? 0) eqn:Hcmp; lia.
Qed.

Lemma capacity_balloon (v : Vehicle) :
  vehicle = Some v -> vehicle_type v = balloon_type -> hideEmptyCapacity = false ->
  capacity = Some (Z.max 0 (maxCapacity v)).
Proof.
  intros Hv Hty ->. unfold VehicleCard.capacity. rewrite Hv. simpl.
  rewrite Hty, bool_decide_eq_false_2 by done. f_equal.
  destruct (_ <? 0) eqn:Hcmp; lia.
Qed.
End VehicleCardFacts.

Module VehicleCardExamples.
Import Entities VehicleCard StatedWeight DialogData CardData CardEdgeData.

Local Abbreviation capacityOn := (fun g a => capacity camp fourLeft false g a).
Local Abbreviation infoMessageOn := (fun g a => infoMessage camp fourLeft false g a).

Example vehicle_alpha : vehicle camp alphaLight = Some alpha.
Proof. reflexivity. Qed.

Example vehicle_unknown : vehicle camp (seat "b9" None []) = None.
Proof. reflexivity. Qed.

Example infoMessage_unknown_vehicle : infoMessageOn alphaGroup (seat "b9" None []) = None.
Proof. reflexivity. Qed.

Example totalWeight_alphaHeavy : totalWeight camp alphaHeavy = 315%float.
Proof. reflexivity. Qed.

Example totalWeight_alphaLight : totalWeight camp alphaLight = 235%float.
Proof. reflexivity. Qed.

(** A card without operator still counts one default weight for the
    operator seat. *)
Example totalWeight_tinyNoPilot : totalWeight camp tinyNoPilot = 175%float.
Proof. reflexivity. Qed.

Example capacity_alpha : capacityOn alphaGroup alphaLight = Some 4.
Proof. reflexivity. Qed.

Example capacity_van : capacityOn alphaGroup vanSeats = Some 4.
Proof. reflexivity. Qed.

Example capacity_hidden :
  capacity camp fourLeft true alphaGroup alphaLight = Some 2.
Proof. reflexivity. Qed.

Example rowCount_crowded : rowCount camp fourLeft false alphaGroup alphaCrowded = Some 5.
Proof. reflexivity. Qed.

Example info_alphaHeavy : infoMessageOn alphaGroup alphaHeavy = Some (Some weightExceeded).
Proof. reflexivity. Qed.

Example info_alphaLight : infoMessageOn alphaGroup alphaLight = Some None.
Proof. reflexivity. Qed.

Example info_alphaCrowded :
  infoMessageOn alphaGroup alphaCrowded = Some (Some tooManyPassengers).
Proof. reflexivity. Qed.

Example info_tinyWrongPilot :
  infoMessageOn tinyGroup tinyWrongPilot = Some (Some operatorNotAllowed).
Proof. reflexivity. Qed.

Example info_tinyNoPilot : infoMessageOn tinyGroup tinyNoPilot = Some None.
Proof. reflexivity. Qed.

Lemma zoe_not_allowed_on_tiny : "zoe" ∉ allowedOperatorIds tiny.
Proof.
  intros Hin. apply list_elem_of_In in Hin. simpl in Hin.
  destruct Hin as [Heq|[]]. discriminate Heq.
Defined.

(** Alpha (capacity 4) with four passengers, and with two. *)
Lemma capacity_violation_witness :
  capacityOn alphaGroup alphaCrowded = Some 4 /\
  infoMessageOn alphaGroup alphaCrowded = Some (Some tooManyPassengers) /\
  infoMessageOn alphaGroup alphaLight ≠ Some (Some tooManyPassengers).
Proof.
  split; [reflexivity|]. split.
  - apply (proj1 (capacity_violation_iff_exceeds_capacity_minus_one
                    camp fourLeft false alphaGroup alphaCrowded 4 eq_refl)).
    simpl. lia.
  - apply (proj2 (capacity_violation_iff_exceeds_capacity_minus_one
                    camp fourLeft false alphaGroup alphaLight 4 eq_refl)).
    simpl. lia.
Defined.

(** C3 as stated fails when the passenger count equals the capacity: Tiny
    has capacity 2 and two passengers, its operator is not allowed, and the
    card reports the capacity violation instead of the operator. *)
Lemma eligibility_claim_fails_at_full_capacity :
  vehicle camp tinyTwoPassengers = Some tiny /\
  capacityOn tinyGroup tinyTwoPassengers = Some 2 /\
  ~ (Z.of_nat (length (passengerIds tinyTwoPassengers)) <= 2 ->
     (infoMessageOn tinyGroup tinyTwoPassengers = Some (Some operatorNotAllowed) <->
      exists op, operatorId tinyTwoPassengers = Some op /\
                 op ∉ allowedOperatorIds tiny)).
Proof.
  split; [reflexivity|]. split; [reflexivity|].
  intros Hclaim.
  assert (infoMessageOn tinyGroup tinyTwoPassengers = Some (Some operatorNotAllowed))
    as Hmsg.
  { apply Hclaim; [simpl; lia|].
    exists "zoe". split; [reflexivity|exact zoe_not_allowed_on_tiny]. }
  discriminate Hmsg.
Qed.

(** Tiny with one passenger: a pilot who is not allowed is reported, no pilot is not. *)
Lemma eligibility_violation_witness :
  infoMessageOn tinyGroup tinyWrongPilot = Some (Some operatorNotAllowed) /\
  infoMessageOn tinyGroup tinyNoPilot ≠ Some (Some operatorNotAllowed).
Proof.
  split.
  - destruct (eligibility_violation_iff_operator_not_allowed
                camp fourLeft false tinyGroup tinyWrongPilot tiny 2 eq_refl eq_refl)
      as (Hiff & _).
    apply Hiff; [simpl; lia|].
    exists "zoe". split; [reflexivity|exact zoe_not_allowed_on_tiny].
  - destruct (eligibility_violation_iff_operator_not_allowed
                camp fourLeft false tinyGroup tinyNoPilot tiny 2 eq_refl eq_refl)
      as (_ & Hnull).
    apply Hnull. reflexivity.
Defined.

(** Alpha (at most 300 kg) carrying 315 kg. *)
Lemma weight_violation_witness :
  totalWeight camp alphaHeavy = 315%float /\
  infoMessageOn alphaGroup alphaHeavy = Some (Some weightExceeded).
Proof.
  destruct (weight_violation_iff_total_exceeds_maximum
              camp fourLeft false alphaGroup alphaHeavy alpha 4 300%float)
    as (Htotal & _ & Hiff).
  split; [rewrite Htotal; reflexivity|].
  apply Hiff; [reflexivity|reflexivity|reflexivity|reflexivity|simpl; lia| |].
  - intros op Hop. injection Hop as <-.
    in_literal_list.
  - reflexivity.
Defined.

(** C4 as stated fails for an assignment without operator: Alpha (at most
    300 kg, capacity 4) carries three passengers of 95, 90 and 80 kg and
    nobody in the operator seat.  The operator's weight plus the passengers'
    weights is 265 kg and does not exceed the maximum, yet the card counts
    the default weight of 80 kg for the empty operator seat, totals 345 kg
    and shows the weight warning. *)
Lemma weight_claim_fails_without_operator :
  vehicle camp alphaNoPilot = Some alpha /\
  maxWeight alpha = JsNum 300%float /\
  capacityOn alphaGroup alphaNoPilot = Some 4 /\
  operatorId alphaNoPilot = None /\
  statedTotalWeight camp alphaNoPilot = 265%float /\
  totalWeight camp alphaNoPilot = 345%float /\
  ~ (infoMessageOn alphaGroup alphaNoPilot = Some (Some weightExceeded) <->
     PrimFloat.ltb 300%float (statedTotalWeight camp alphaNoPilot) = true).
Proof.
  repeat (split; [reflexivity|]).
  intros [Hshown _].
  assert (PrimFloat.ltb 300%float (statedTotalWeight camp alphaNoPilot) = true)
    as Hexceeds by (apply Hshown; reflexivity).
  vm_compute in Hexceeds. discriminate Hexceeds.
Qed.

End VehicleCardExamples.

(** ** The Smart Fill dialog and the solver boundary *)

Section SolverFacts.
Import SmartFillDialog Solver.
Local Open Scope Q_scope.
Variables VehicleSlot Person Plan LiveState CancellationToken : Type.
Variable weightValue : option Q -> Q.
Variable search :
  SmartFillOptions -> ProblemInstance VehicleSlot Person -> CancellationToken ->
  SearchRun Plan.

(** C1 (as amended). The second-leg fairness term contributes its weight
    times the sub-score when [leg] is [null] and contributes zero when
    [leg] names a single leg; the dialog shows the input for
    [wSecondLegFairness] exactly when [leg] is not [null], and hides it
    when both legs are planned jointly. *)
Theorem second_leg_weight_input_shown_iff_leg_set (o : SmartFillOptions) :
  (leg o = None ->
   (forall subScore,
       secondLegFairnessTerm weightValue o subScore
         = weightValue (wSecondLegFairness o) * subScore) /\
   showsSecondLegFairnessInput o = false) /\
  (leg o ≠ None ->
   (forall subScore, secondLegFairnessTerm weightValue o subScore = 0) /\
   showsSecondLegFairnessInput o = true) /\
  (showsSecondLegFairnessInput o = true <-> leg o ≠ None).
Proof.
  unfold secondLegFairnessTerm, showsSecondLegFairnessInput.
  destruct (leg o) as [l|]; repeat split; try done.
Qed.

Lemma isNonPositive_true (t : option Q) :
  isNonPositive t = true <-> exists q, t = Some q /\ q <= 0.
Proof.
  destruct t as [q|]; simpl.
  - rewrite Qle_bool_iff. split; [by exists q|by intros (q' & [= <-] & Hq)].
  - split; [done|by intros (q & ? & _)].
Qed.

Lemma isNegative_true (w : option Q) :
  isNegative w = true <-> exists q, w = Some q /\ q < 0.
Proof.
  destruct w as [q|]; simpl.
  - rewrite negb_true_iff. split.
    + intros Hle. exists q. split; [done|]. apply Qnot_le_lt.
      intros H0. apply Qle_bool_iff in H0. congruence.
    + intros (q' & [= <-] & Hq). apply not_true_is_false.
      intros H0. apply Qle_bool_iff in H0. by apply Qlt_not_le in Hq.
  - split; [done|by intros (q & ? & _)].
Qed.

Lemma resultOf_not_invalid (r : SearchOutcome Plan) :
  resultOf r ≠ inr InvalidConfiguration.
Proof. by destruct r. Qed.

(** C6. [runSmartFill] fails with [InvalidConfiguration] exactly when the
    time limit is set and not positive, or one of the five weights is set
    and negative, or the instance has no vehicle slot; in that case no
    search iteration has run and the live state is the one passed in. *)
Theorem runSmartFill_invalid_configuration_iff_malformed
    (o : SmartFillOptions) (instance : ProblemInstance VehicleSlot Person)
    (token : CancellationToken) (live : LiveState) :
  let run := runSmartFill search o instance token live in
  let negative (w : option Q) := exists q, w = Some q /\ q < 0 in
  (result run = inr InvalidConfiguration <->
   (exists t, timeLimit o = Some t /\ t <= 0) \/
   (negative (wPassengerFairness o) \/ negative (wSecondLegFairness o) \/
    negative (wPilotFairness o) \/ negative (wVehicleRotation o) \/
    negative (wNationalityDiversity o)) \/
   vehicleSlots instance = []) /\
  (result run = inr InvalidConfiguration ->
   searchIterations run = 0%nat /\ liveState run = live).
Proof.
  intros run negative. subst run. unfold runSmartFill.
  destruct (malformed o instance) eqn:Hm; cbn [result searchIterations liveState].
  - split; [|done]. split; [intros _|done].
    unfold malformed in Hm. apply orb_true_iff in Hm as [Hm|Hm];
      [apply orb_true_iff in Hm as [Hm|Hm]|].
    + left. by apply isNonPositive_true.
    + right; left. unfold weights in Hm. cbn [existsb] in Hm.
      repeat (apply orb_true_iff in Hm as [Hm|Hm]); try discriminate;
        apply isNegative_true in Hm; unfold negative; tauto.
    + right; right. by apply bool_decide_eq_true in Hm.
  - split; [|by intros H%resultOf_not_invalid].
    split; [by intros H%resultOf_not_invalid|]. intros Hcases. exfalso.
    unfold malformed in Hm.
    apply orb_false_iff in Hm as [Hm Hslots].
    apply orb_false_iff in Hm as [Htime Hweights].
    unfold weights in Hweights. cbn [existsb] in Hweights.
    repeat (apply orb_false_iff in Hweights as [? Hweights]).
    destruct Hcases as [Ht|[Hw|Hs]].
    + apply isNonPositive_true in Ht. congruence.
    + unfold negative in Hw.
      repeat (destruct Hw as [Hw|Hw]); apply isNegative_true in Hw; congruence.
    + apply bool_decide_eq_false in Hslots. done.
Qed.
End SolverFacts.

Module SolverExamples.
Import SmartFillDialog Solver SolverData.
Local Open Scope Q_scope.

Example input_hidden_initially : showsSecondLegFairnessInput initialOptions = false.
Proof. reflexivity. Qed.

Example input_shown_for_second_leg : showsSecondLegFairnessInput secondLegOnly = true.
Proof. reflexivity. Qed.

Example input_shown_per_option :
  map (fun opt => showsSecondLegFairnessInput
                    {| leg := opt.2;
                       wPassengerFairness := None; wSecondLegFairness := None;
                       wPilotFairness := None; wVehicleRotation := None;
                       wNationalityDiversity := None; timeLimit := None |})
      flightLegOptions
  = [false; true; true].
Proof. reflexivity. Qed.

Example run_negative_time_limit :
  runSmartFill fixedSearch negativeTimeLimit threeSlots tt 7%nat =
    {| result := inr InvalidConfiguration; searchIterations := 0; liveState := 7%nat |}.
Proof. reflexivity. Qed.

Example run_valid_options :
  runSmartFill fixedSearch secondLegOnly threeSlots tt 7%nat =
    {| result := inl ["dan"; "eve"]; searchIterations := 1000; liveState := 7%nat |}.
Proof. reflexivity. Qed.

Example run_no_vehicle :
  result (runSmartFill fixedSearch secondLegOnly
            {| vehicleSlots := []; people := ["dan"] |} tt 7%nat)
    = inr InvalidConfiguration.
Proof. reflexivity. Qed.

(** C1 as stated fails on the options the dialog starts with: [leg] is
    [null], both legs are planned jointly, and the input for
    [wSecondLegFairness] is not shown. *)
Lemma second_leg_input_not_offered_for_joint_legs :
  leg initialOptions = None /\
  ~ (showsSecondLegFairnessInput initialOptions = true <-> leg initialOptions = None).
Proof.
  split; [reflexivity|]. intros [_ Hshown]. specialize (Hshown eq_refl).
  discriminate Hshown.
Qed.

(** A configuration for the second leg only. *)
Lemma second_leg_weight_input_witness :
  secondLegFairnessTerm unsetIsOne secondLegOnly (3 # 4) = 0 /\
  showsSecondLegFairnessInput secondLegOnly = true.
Proof.
  destruct (second_leg_weight_input_shown_iff_leg_set unsetIsOne secondLegOnly)
    as (_ & Hset & _).
  destruct Hset as (Hterm & Hshown); [discriminate|].
  split; [exact (Hterm (3 # 4))|exact Hshown].
Defined.

(** The scenario [timeLimit = -1]. *)
Lemma runSmartFill_invalid_configuration_witness :
  result (runSmartFill fixedSearch negativeTimeLimit threeSlots tt 7%nat)
    = inr InvalidConfiguration /\
  searchIterations (runSmartFill fixedSearch negativeTimeLimit threeSlots tt 7%nat)
    = 0%nat /\
  liveState (runSmartFill fixedSearch negativeTimeLimit threeSlots tt 7%nat) = 7%nat.
Proof.
  destruct (runSmartFill_invalid_configuration_iff_malformed
              string string (list string) nat unit fixedSearch
              negativeTimeLimit threeSlots tt 7%nat) as (Hiff & Hquiet).
  assert (result (runSmartFill fixedSearch negativeTimeLimit threeSlots tt 7%nat)
            = inr InvalidConfiguration) as Hinvalid.
  { apply Hiff. left. exists (-1). split; [reflexivity|]. discriminate. }
  split; [exact Hinvalid|exact (Hquiet Hinvalid)].
Defined.

End SolverExamples.

(** * Further properties of the sources *)

(** ** The project index: removal, lookup and how the operations compose *)

Section ProjectIndexComposition.
Import JsArray ProjectIndex.
Variable platform : Platform.
Implicit Types (st : IndexStore) (meta : RawProjectMeta) (ms : list ProjectMeta).

Lemma findIndex_at {A : Type} (p : A -> bool) (l : list A) (n : nat) (x : A) :
  l !! n = Some x -> p x = true ->
  (forall (j : nat) (y : A), (j < n)%nat -> l !! j = Some y -> p y = false) ->
  findIndex p l = Z.of_nat n.
Proof.
  intros Hl Hp Hfirst. unfold findIndex. rewrite findIndexFrom_list_find.
  assert (list_find (fun y => p y = true) l = Some (n, x)) as ->; [|lia].
  apply list_find_Some. split; [done|]. split; [done|].
  intros j y Hy Hj. rewrite (Hfirst j y Hj Hy). done.
Qed.

Lemma projectFilePath_found st ms1 m ms2 :
  getProjectIndex st = (ms1 ++ m :: ms2)%list ->
  (forall m', m' ∈ ms1 -> meta_id m' ≠ meta_id m) ->
  projectFilePath (meta_id m) st =
    if bool_decide (meta_filePath m = "") then None else Some (meta_filePath m).
Proof.
  intros Hms Hbefore. unfold projectFilePath. rewrite Hms.
  assert (list_find (fun m' => meta_id m' = meta_id m) (ms1 ++ m :: ms2)
          = Some (length ms1, m)) as ->; [|done].
  apply list_find_Some. split; [by rewrite list_lookup_middle|]. split; [done|].
  intros j y Hy Hj. rewrite lookup_app_l in Hy by done.
  apply Hbefore. by eapply list_elem_of_lookup_2.
Qed.

Lemma projectFilePath_absent st (i : string) :
  (forall m, m ∈ getProjectIndex st -> meta_id m ≠ i) ->
  projectFilePath i st = None.
Proof.
  intros Hno. unfold projectFilePath.
  assert (list_find (fun m => meta_id m = i) (getProjectIndex st) = None) as ->; [|done].
  apply list_find_None, Forall_forall. intros m Hm. by apply Hno.
Qed.

Lemma removelast_snoc_last ms :
  ms ≠ [] -> exists m, last ms = Some m /\ ms = (removelast ms ++ [m])%list.
Proof.
  intros Hne. destruct (exists_last Hne) as (front & m & ->).
  exists m. by rewrite last_snoc, removelast_last.
Qed.

Lemma sublist_into_filter (i : string) ms (kept : list ProjectMeta) :
  kept `sublist_of` ms ->
  (forall m, m ∈ kept -> meta_id m ≠ i) ->
  kept `sublist_of` filter (fun m => meta_id m ≠ i) ms.
Proof.
  induction 1 as [|m kept ms Hsub IH|m kept ms Hsub IH]; intros Hkept.
  - done.
  - rewrite filter_cons_True by (apply Hkept; left).
    apply sublist_skip, IH. intros m' Hm'. apply Hkept. by right.
  - destruct (decide (meta_id m ≠ i)).
    + rewrite filter_cons_True by done. by apply sublist_cons, IH.
    + rewrite filter_cons_False by done. by apply IH.
Qed.

Lemma length_filter_split (i : string) ms :
  (length (filter (fun m => meta_id m ≠ i) ms)
   + length (filter (fun m => meta_id m = i) ms) = length ms)%nat.
Proof.
  induction ms as [|m ms IH]; [done|].
  destruct (decide (meta_id m = i)).
  - rewrite filter_cons_False by (by intros ?).
    rewrite (filter_cons_True (fun m => meta_id m = i)) by done. simpl. lia.
  - rewrite filter_cons_True by done.
    rewrite (filter_cons_False (fun m => meta_id m = i)) by done. simpl. lia.
Qed.

(** X1. [removeProjectMeta] always returns and keeps exactly the entries
    whose id differs from the given one, in their order and as often as
    they occurred: the new index is a sublist of the old one without any
    entry of that id, it contains every sublist of the old index that has
    no entry of that id, and the number of entries dropped is the number of
    entries that had the id. *)
Theorem removeProjectMeta_keeps_exactly_the_others (i : string) st :
  let ms := getProjectIndex st in
  let ms' := getProjectIndex (removeProjectMeta i st).2 in
  (removeProjectMeta i st).1 = Returns /\
  (forall m, m ∈ ms' <-> m ∈ ms /\ meta_id m ≠ i) /\
  ms' `sublist_of` ms /\
  (forall kept : list ProjectMeta,
      kept `sublist_of` ms -> (forall m, m ∈ kept -> meta_id m ≠ i) ->
      kept `sublist_of` ms') /\
  (length ms' + length (filter (fun m => meta_id m = i) ms) = length ms)%nat.
Proof.
  intros ms ms'. subst ms'. unfold removeProjectMeta. cbn [fst snd].
  rewrite getProjectIndex_setMetas. fold ms.
  split; [done|]. split; [|split; [|split]].
  - intros m. rewrite list_elem_of_filter. tauto.
  - apply sublist_filter.
  - intros kept. apply sublist_into_filter.
  - apply length_filter_split.
Qed.

Lemma filter_other_ids_all (i : string) ms :
  (forall m, m ∈ ms -> meta_id m ≠ i) ->
  filter (fun m => meta_id m ≠ i) ms = ms.
Proof.
  intros Hno. induction ms as [|m ms IH]; [done|].
  rewrite filter_cons_True by (apply Hno; left).
  f_equal. apply IH. intros m' Hm'. apply Hno. by right.
Qed.

(** X2. Removing an id that no entry carries leaves the entries as they
    are, and removing the same id a second time changes nothing. *)
Theorem removeProjectMeta_absent_and_idempotent (i : string) st :
  ((forall m, m ∈ getProjectIndex st -> meta_id m ≠ i) ->
   getProjectIndex (removeProjectMeta i st).2 = getProjectIndex st) /\
  removeProjectMeta i (removeProjectMeta i st).2 = removeProjectMeta i st.
Proof.
  unfold removeProjectMeta. cbn [fst snd]. rewrite !getProjectIndex_setMetas.
  split.
  - apply filter_other_ids_all.
  - f_equal. unfold setMetas. do 2 f_equal.
    apply filter_other_ids_all. intros m Hm.
    by apply list_elem_of_filter in Hm as [? _].
Qed.

(** The first entry with id [j], if any, is the same before and after the
    entries with another id [i] are filtered out. *)
Lemma list_find_filter_other_id (i j : string) ms :
  j ≠ i ->
  snd <$> list_find (fun m => meta_id m = j) (filter (fun m => meta_id m ≠ i) ms)
  = snd <$> list_find (fun m => meta_id m = j) ms.
Proof.
  intros Hj. induction ms as [|m ms IH]; [done|].
  destruct (decide (meta_id m = i)) as [Hmi|Hmi].
  - rewrite filter_cons_False by (by intros ?).
    rewrite IH. simpl. rewrite decide_False by congruence.
    by destruct (list_find _ ms) as [[k y]|].
  - rewrite filter_cons_True by done. simpl.
    destruct (decide (meta_id m = j)); [done|].
    destruct (list_find _ (filter _ ms)) as [[k y]|];
      destruct (list_find _ ms) as [[k' y']|]; simpl in *; congruence.
Qed.

Lemma projectFilePath_first_entry (j : string) st :
  projectFilePath j st =
    match snd <$> list_find (fun m => meta_id m = j) (getProjectIndex st) with
    | Some m => if bool_decide (meta_filePath m = "") then None
                else Some (meta_filePath m)
    | None => None
    end.
Proof.
  unfold projectFilePath. by destruct (list_find _ _) as [[n m]|].
Qed.

(** X3. After [removeProjectMeta i] the lookup [projectFilePath i] throws,
    and the lookup of every other id gives what it gave before. *)
Theorem projectFilePath_after_remove (i : string) st :
  let st' := (removeProjectMeta i st).2 in
  projectFilePath i st' = None /\
  (forall j : string, j ≠ i -> projectFilePath j st' = projectFilePath j st).
Proof.
  intros st'. subst st'. split.
  - apply projectFilePath_absent. unfold removeProjectMeta. cbn [snd].
    rewrite getProjectIndex_setMetas. intros m Hm.
    by apply list_elem_of_filter in Hm as [? _].
  - intros j Hj. rewrite !projectFilePath_first_entry.
    unfold removeProjectMeta. cbn [snd]. rewrite getProjectIndex_setMetas.
    by rewrite list_find_filter_other_id.
Qed.
Lemma updated_index meta st :
  let ms := getProjectIndex st in
  let ms' := getProjectIndex (updateProjectMeta platform meta st).2 in
  (exists (i : nat) (old : ProjectMeta),
      ms !! i = Some old /\ meta_id old = raw_id meta /\
      (forall (j : nat) (m : ProjectMeta),
          (j < i)%nat -> ms !! j = Some m -> meta_id m ≠ raw_id meta) /\
      ms' = <[i:=buildMeta platform meta]> ms) \/
  ((forall m, m ∈ ms -> meta_id m ≠ raw_id meta) /\
   ms' = (removelast ms ++ [buildMeta platform meta])%list).
Proof.
  intros ms ms'. subst ms'. unfold updateProjectMeta. cbn [snd].
  rewrite getProjectIndex_setMetas. fold ms.
  destruct (decide (findIndex (sameId (raw_id meta)) ms = -1)) as [Habs|Hpres].
  - right. rewrite Habs, splice_minus_one. split; [|done].
    intros m Hm. apply sameId_false. by apply (findIndex_absent _ ms).
  - left. destruct (findIndex_present _ _ Hpres) as (i & old & Hidx & Hold & Hp & Hfirst).
    exists i, old. rewrite Hidx, splice_replace_at by (by eapply lookup_lt_Some).
    split; [done|]. split; [by apply sameId_true|]. split; [|done].
    intros j m Hj Hm. apply sameId_false. by eapply Hfirst.
Qed.

Lemma removelast_sublist ms : removelast ms `sublist_of` ms.
Proof. rewrite removelast_firstn_len. apply sublist_take. Qed.

(** X4. Unique ids are an invariant of the index: when no two entries
    share an id, the same holds after [addProjectMeta] (whether it returns
    or throws), after [updateProjectMeta] and after [removeProjectMeta]. *)
Theorem unique_ids_preserved meta (i : string) st :
  NoDup (meta_id <$> getProjectIndex st) ->
  NoDup (meta_id <$> getProjectIndex (addProjectMeta platform meta st).2) /\
  NoDup (meta_id <$> getProjectIndex (updateProjectMeta platform meta st).2) /\
  NoDup (meta_id <$> getProjectIndex (removeProjectMeta i st).2).
Proof.
  intros Hnd. split; [|split].
  - unfold addProjectMeta.
    destruct (findIndex (sameId (raw_id meta)) (getProjectIndex st) =? -1) eqn:Hidx;
      cbn [negb snd]; [|done].
    apply Z.eqb_eq in Hidx. rewrite getProjectIndex_setMetas. unfold push.
    rewrite fmap_app. apply NoDup_app. split; [done|]. split; [|apply NoDup_singleton].
    intros x Hx Hx'. apply list_elem_of_singleton in Hx'. subst x.
    apply list_elem_of_fmap in Hx as (m & Hid & Hm).
    pose proof (proj1 (findIndex_absent _ _) Hidx m Hm) as Hfalse.
    apply sameId_false in Hfalse. by rewrite <- Hid in Hfalse.
  - destruct (updated_index meta st) as
      [(n & old & Hold & Hid & _ & ->) | (Hno & ->)].
    + rewrite list_fmap_insert. simpl. rewrite <- Hid.
      rewrite list_insert_id; [done|]. by rewrite list_lookup_fmap, Hold.
    + rewrite fmap_app. apply NoDup_app. split; [|split; [|apply NoDup_singleton]].
      * eapply sublist_NoDup; [done|]. apply fmap_sublist, removelast_sublist.
      * intros x Hx Hx'. apply list_elem_of_singleton in Hx'. subst x.
        apply list_elem_of_fmap in Hx as (m & Hid & Hm).
        apply (Hno m); [|done]. eapply elem_of_sublist; [done|apply removelast_sublist].
  - unfold removeProjectMeta. cbn [snd]. rewrite getProjectIndex_setMetas.
    eapply sublist_NoDup; [done|]. apply fmap_sublist, sublist_filter.
Qed.

(** X5. After [addProjectMeta] has returned, [projectFilePath] of the new
    id gives the file path that was added (it throws when that path is
    empty), and the lookup of every other id gives what it gave before. *)
Theorem projectFilePath_after_add meta st :
  let r := addProjectMeta platform meta st in
  r.1 = Returns ->
  projectFilePath (raw_id meta) r.2 =
    (if bool_decide (raw_filePath meta = "") then None else Some (raw_filePath meta)) /\
  (forall j : string, j ≠ raw_id meta -> projectFilePath j r.2 = projectFilePath j st).
Proof.
  intros r. subst r. unfold addProjectMeta.
  destruct (findIndex (sameId (raw_id meta)) (getProjectIndex st) =? -1) eqn:Hidx;
    cbn [negb fst snd]; [intros _|done].
  apply Z.eqb_eq in Hidx.
  assert (forall m, m ∈ getProjectIndex st -> meta_id m ≠ raw_id meta) as Hno.
  { intros m Hm. apply sameId_false. by apply (findIndex_absent _ (getProjectIndex st)). }
  split.
  - apply (projectFilePath_found _ (getProjectIndex st) (buildMeta platform meta) []);
      [done|]. intros m' Hm'. by apply Hno.
  - intros j Hj. rewrite !projectFilePath_first_entry, getProjectIndex_setMetas.
    unfold push.
    destruct (list_find (fun m => meta_id m = j) (getProjectIndex st))
      as [[k m]|] eqn:Hf.
    + by rewrite (list_find_app_l _ _ _ _ _ Hf).
    + rewrite list_find_app_r by done. simpl.
      rewrite decide_False; [done|]. simpl. congruence.
Qed.

(** X6. Adding a project and then removing its id gives back the entries
    the index had before the addition. *)
Theorem remove_after_add_restores_index meta st :
  let r := addProjectMeta platform meta st in
  r.1 = Returns ->
  getProjectIndex (removeProjectMeta (raw_id meta) r.2).2 = getProjectIndex st.
Proof.
  intros r. subst r. unfold addProjectMeta.
  destruct (findIndex (sameId (raw_id meta)) (getProjectIndex st) =? -1) eqn:Hidx;
    cbn [negb fst snd]; [intros _|done].
  apply Z.eqb_eq in Hidx.
  unfold removeProjectMeta. cbn [snd]. rewrite !getProjectIndex_setMetas.
  unfold push. rewrite filter_app, filter_cons_False, filter_nil, app_nil_r.
  - apply filter_other_ids_all. intros m Hm. apply sameId_false.
    by apply (findIndex_absent _ (getProjectIndex st)).
  - intros Hne. by apply Hne.
Qed.

(** X7. After [updateProjectMeta], whether or not the id was in the index,
    [projectFilePath] of the meta's id gives the meta's file path (it throws
    when that path is empty). *)
Theorem projectFilePath_after_update meta st :
  projectFilePath (raw_id meta) (updateProjectMeta platform meta st).2 =
    if bool_decide (raw_filePath meta = "") then None else Some (raw_filePath meta).
Proof.
  destruct (updated_index meta st) as
    [(n & old & Hold & Hid & Hfirst & Heq) | (Hno & Heq)].
  - assert (n < length (getProjectIndex st))%nat as Hn by (by eapply lookup_lt_Some).
    rewrite insert_take_drop in Heq by done.
    apply (projectFilePath_found _ _ (buildMeta platform meta) _ Heq).
    intros m' Hm'. apply list_elem_of_lookup in Hm' as [j Hj].
    apply lookup_take_Some in Hj as [Hj Hlt]. by eapply Hfirst.
  - apply (projectFilePath_found _ _ (buildMeta platform meta) [] Heq).
    intros m' Hm'. apply Hno.
    eapply elem_of_sublist; [done|apply removelast_sublist].
Qed.

(** X8. [updateProjectMeta] is idempotent: updating with the same meta a
    second time leaves the store as the first update made it. *)
Theorem updateProjectMeta_idempotent meta st :
  updateProjectMeta platform meta (updateProjectMeta platform meta st).2
  = updateProjectMeta platform meta st.
Proof.
  pose proof (updated_index meta st) as Hupd. cbv zeta in Hupd.
  set (st' := (updateProjectMeta platform meta st).2) in *.
  assert (getProjectIndex (updateProjectMeta platform meta st').2
          = getProjectIndex st') as Hsame.
  { unfold updateProjectMeta at 1. cbn [snd]. rewrite getProjectIndex_setMetas.
    destruct Hupd as [(n & old & Hold & Hid & Hfirst & Heq) | (Hno & Heq)].
    - assert (n < length (getProjectIndex st))%nat as Hn by (by eapply lookup_lt_Some).
      rewrite (findIndex_at _ _ n (buildMeta platform meta)).
      + rewrite splice_replace_at by (by rewrite Heq, length_insert).
        by rewrite Heq, list_insert_insert_eq.
      + rewrite Heq. by apply list_lookup_insert_eq.
      + by apply sameId_true.
      + intros j y Hj Hy. rewrite Heq, list_lookup_insert_ne in Hy by lia.
        apply sameId_false. by eapply Hfirst.
    - set (front := removelast (getProjectIndex st)) in *.
      rewrite (findIndex_at _ _ (length front) (buildMeta platform meta)).
      + rewrite splice_replace_at by (rewrite Heq, length_app; simpl; lia).
        rewrite Heq. rewrite insert_app_r_alt by lia.
        by rewrite Nat.sub_diag.
      + rewrite Heq. by apply list_lookup_middle.
      + by apply sameId_true.
      + intros j y Hj Hy. rewrite Heq, lookup_app_l in Hy by done.
        apply sameId_false, Hno.
        eapply elem_of_sublist; [|apply removelast_sublist].
        by eapply list_elem_of_lookup_2. }
  unfold updateProjectMeta in *. cbn [snd] in *.
  rewrite getProjectIndex_setMetas in Hsame. unfold setMetas. do 2 f_equal.
  by rewrite Hsame.
Qed.

(** X9. Updating a project whose id is not in a non-empty index with unique
    ids makes the index's last project unreachable: its id was looked up
    successfully before (its path being non-empty) and throws
    afterwards. *)
Theorem update_of_unknown_id_loses_last_project meta st (lost : ProjectMeta) :
  NoDup (meta_id <$> getProjectIndex st) ->
  (forall m, m ∈ getProjectIndex st -> meta_id m ≠ raw_id meta) ->
  last (getProjectIndex st) = Some lost ->
  meta_filePath lost ≠ "" ->
  projectFilePath (meta_id lost) st = Some (meta_filePath lost) /\
  projectFilePath (meta_id lost) (updateProjectMeta platform meta st).2 = None.
Proof.
  intros Hnd Hno Hlast Hpath.
  destruct (removelast_snoc_last (getProjectIndex st)) as (m & Hm & Hms).
  { intros Hnil. by rewrite Hnil in Hlast. }
  rewrite Hlast in Hm. injection Hm as <-.
  assert (forall m', m' ∈ removelast (getProjectIndex st) -> meta_id m' ≠ meta_id lost)
    as Hfront.
  { rewrite Hms in Hnd. rewrite fmap_app in Hnd.
    apply NoDup_app in Hnd as (_ & Hdisj & _).
    intros m' Hm' Heq. apply (Hdisj (meta_id m')).
    - apply list_elem_of_fmap. by exists m'.
    - rewrite Heq. simpl. by left. }
  split.
  - rewrite (projectFilePath_found st _ lost [] Hms Hfront).
    by rewrite bool_decide_eq_false_2.
  - apply projectFilePath_absent.
    destruct (updated_index meta st) as
      [(n & old & Hold & Hid & _) | (_ & ->)].
    + exfalso. apply (Hno old); [|done]. by eapply list_elem_of_lookup_2.
    + intros m' Hm'. apply elem_of_app in Hm' as [Hm'|Hm'].
      * by apply Hfront.
      * apply list_elem_of_singleton in Hm'. subst m'. simpl.
        intros Heq. apply (Hno lost); [|done].
        rewrite Hms. apply elem_of_app. right. by left.
Qed.
End ProjectIndexComposition.

Module ProjectIndexCompositionExamples.
Import JsArray ProjectIndex ProjectIndexData.

Lemma twoProjects_unique_ids : NoDup (meta_id <$> getProjectIndex twoProjects).
Proof. apply (bool_decide_unpack (NoDup _)). vm_compute. exact I. Defined.

Example remove_known_project :
  removeProjectMeta "p1" twoProjects
  = (Returns, {| metas := Some [buildMeta posix autumn] |}).
Proof. reflexivity. Qed.

Example remove_from_absent_index :
  removeProjectMeta "p1" {| metas := None |} = (Returns, {| metas := Some [] |}).
Proof. reflexivity. Qed.

Example projectFilePath_examples :
  projectFilePath "p2" twoProjects = Some "/srv/share/p2.json" /\
  projectFilePath "p3" twoProjects = None /\
  projectFilePath "p1" {| metas := None |} = None.
Proof. repeat split. Qed.

(** Removing [p1] from the two projects keeps [p2]. *)
Lemma removeProjectMeta_keeps_witness :
  [buildMeta posix autumn]
    `sublist_of` getProjectIndex (removeProjectMeta "p1" twoProjects).2.
Proof.
  destruct (removeProjectMeta_keeps_exactly_the_others "p1" twoProjects)
    as (_ & _ & _ & Hmax & _).
  apply Hmax.
  - apply sublist_cons, sublist_skip, sublist_nil.
  - intros m Hm. apply list_elem_of_In in Hm. simpl in Hm.
    destruct Hm as [<-|[]]. discriminate.
Defined.

(** Removing the unknown [p3] from the two projects. *)
Lemma removeProjectMeta_absent_witness :
  getProjectIndex (removeProjectMeta "p3" twoProjects).2 = getProjectIndex twoProjects.
Proof.
  apply (proj1 (removeProjectMeta_absent_and_idempotent "p3" twoProjects)).
  intros m Hm. apply list_elem_of_In in Hm. simpl in Hm.
  destruct Hm as [<-|[<-|[]]]; discriminate.
Defined.

(** After removing [p1], [p2] is still found. *)
Lemma projectFilePath_after_remove_witness :
  projectFilePath "p2" (removeProjectMeta "p1" twoProjects).2
  = projectFilePath "p2" twoProjects.
Proof.
  apply (proj2 (projectFilePath_after_remove "p1" twoProjects)). discriminate.
Defined.

(** The two projects, then [p3] added, [p3] updated or [p1] removed. *)
Lemma unique_ids_preserved_witness :
  NoDup (meta_id <$> getProjectIndex (addProjectMeta posix winter twoProjects).2) /\
  NoDup (meta_id <$> getProjectIndex (updateProjectMeta posix winter twoProjects).2) /\
  NoDup (meta_id <$> getProjectIndex (removeProjectMeta "p1" twoProjects).2).
Proof.
  apply (unique_ids_preserved posix). exact twoProjects_unique_ids.
Defined.

(** Adding [p3] and looking it up. *)
Lemma projectFilePath_after_add_witness :
  projectFilePath "p3" (addProjectMeta posix winter twoProjects).2
  = Some "/srv/share/p3.json".
Proof.
  apply (proj1 (projectFilePath_after_add posix winter twoProjects eq_refl)).
Defined.

(** Adding [p3] and removing it again. *)
Lemma remove_after_add_witness :
  getProjectIndex
    (removeProjectMeta "p3" (addProjectMeta posix winter twoProjects).2).2
  = getProjectIndex twoProjects.
Proof.
  apply (remove_after_add_restores_index posix winter twoProjects). reflexivity.
Defined.

(** Updating the unknown [p3] on the two projects loses [p2]. *)
Lemma update_of_unknown_id_witness :
  projectFilePath "p2" twoProjects = Some "/srv/share/p2.json" /\
  projectFilePath "p2" (updateProjectMeta posix winter twoProjects).2 = None.
Proof.
  apply (update_of_unknown_id_loses_last_project posix winter twoProjects
           (buildMeta posix autumn)).
  - exact twoProjects_unique_ids.
  - intros m Hm. apply list_elem_of_In in Hm. simpl in Hm.
    destruct Hm as [<-|[<-|[]]]; discriminate.
  - reflexivity.
  - discriminate.
Defined.

End ProjectIndexCompositionExamples.

(** ** The vehicle assignment card: edge cases and invariants *)

Section VehicleCardInvariants.
Import JsArray Entities VehicleCard.
Variable stores : Stores.
Variable remainingCapacity : VehicleGroup -> gmap string Z.
Variable hideEmptyCapacity : bool.
Variable group : VehicleGroup.

Local Abbreviation capacityOf a :=
  (capacity stores remainingCapacity hideEmptyCapacity group a).
Local Abbreviation rowCountOf a :=
  (rowCount stores remainingCapacity hideEmptyCapacity group a).
Local Abbreviation infoMessageOf a :=
  (infoMessage stores remainingCapacity hideEmptyCapacity group a).
Local Abbreviation cellErrorOf a :=
  (cellError stores remainingCapacity hideEmptyCapacity group a).
Local Abbreviation passengers a := (Z.of_nat (length (passengerIds a))).

Lemma capacity_None a : capacityOf a = None <-> vehicle stores a = None.
Proof. unfold capacity. by destruct (vehicle stores a). Qed.

Lemma infoMessage_cases a v c :
  vehicle stores a = Some v -> capacityOf a = Some c ->
  (passengers a > c - 1 /\ infoMessageOf a = Some (Some tooManyPassengers)) \/
  (passengers a <= c - 1 /\
   ((exists op, operatorId a = Some op /\ (op ∉ allowedOperatorIds v) /\
                infoMessageOf a = Some (Some operatorNotAllowed)) \/
    ((forall op, operatorId a = Some op -> op ∈ allowedOperatorIds v) /\
     infoMessageOf a =
       if bool_decide (vehicle_type v = balloon_type)
          && notNull (maxWeight v) && gtJs (totalWeight stores a) (maxWeight v)
       then Some (Some weightExceeded) else Some None))).
Proof.
  intros Hv Hc.
  rewrite (infoMessage_unfold stores remainingCapacity hideEmptyCapacity group a v c Hv Hc).
  destruct (c - 1 <? passengers a) eqn:Hcmp.
  - left. split; [lia|done].
  - right. split; [lia|].
    destruct (operatorId a) as [op|].
    + destruct (includes (allowedOperatorIds v) op) eqn:Hinc; cbn [negb].
      * right. split; [|done]. intros op' [= <-]. by apply includes_true.
      * left. exists op. split; [done|]. split; [|done]. by apply includes_false.
    + right. split; [|done]. by intros op [=].
Qed.

Lemma tooManyPassengers_shown_iff a c :
  capacityOf a = Some c ->
  (infoMessageOf a = Some (Some tooManyPassengers) <-> passengers a > c - 1).
Proof.
  intros Hc.
  destruct (capacity_vehicle stores remainingCapacity hideEmptyCapacity group a c Hc)
    as [v Hv].
  destruct (infoMessage_cases a v c Hv Hc)
    as [[Hgt ->] | [Hle [(op & _ & _ & ->) | [_ ->]]]].
  - done.
  - split; [discriminate|lia].
  - split; [|lia]. by case_match.
Qed.

(** X10. The card's computed values throw (reading a property of
    [undefined]) exactly when the assignment's id is in neither [carMap] nor
    [balloonMap].  When the id is in both maps the car is the vehicle. *)
Theorem card_throws_iff_vehicle_unknown (a : VehicleAssignment) :
  let unknown :=
    carMap stores !! assignment_id a = None /\
    balloonMap stores !! assignment_id a = None in
  (capacityOf a = None <-> unknown) /\
  (rowCountOf a = None <-> unknown) /\
  (infoMessageOf a = None <-> unknown) /\
  (forall car, carMap stores !! assignment_id a = Some car ->
               vehicle stores a = Some car).
Proof.
  intros unknown.
  assert (vehicle stores a = None <-> unknown) as Hunknown.
  { unfold vehicle, unknown. destruct (carMap stores !! _); [|tauto].
    split; [done|]. by intros [? _]. }
  split; [by rewrite capacity_None|]. split; [|split].
  - rewrite <- Hunknown, <- capacity_None. unfold rowCount.
    by destruct (capacityOf a).
  - rewrite <- Hunknown.
    destruct (vehicle stores a) as [v|] eqn:Hv.
    + destruct (capacityOf a) as [c|] eqn:Hc; [|by apply capacity_None in Hc; congruence].
      rewrite (infoMessage_unfold _ _ _ _ _ v c Hv Hc).
      split; [|done]. repeat case_match; discriminate.
    + split; [done|]. intros _. apply capacity_None in Hv.
      unfold infoMessage. by rewrite Hv.
  - intros car Hcar. unfold vehicle. by rewrite Hcar.
Qed.

(** X11. A shown capacity is never negative, and the table has at least
    one row, at least as many rows as the capacity, and a passenger row for
    every passenger. *)
Theorem capacity_and_rowCount_bounds (a : VehicleAssignment) (c r : Z) :
  capacityOf a = Some c ->
  rowCountOf a = Some r ->
  0 <= c /\ 1 <= r /\ c <= r /\ passengers a <= r - 1.
Proof.
  intros Hc Hr. unfold rowCount in Hr. rewrite Hc in Hr. simpl in Hr.
  injection Hr as <-.
  assert (0 <= c); [|lia].
  unfold capacity in Hc. destruct (vehicle stores a) as [v|]; [|done].
  simpl in Hc. injection Hc as <-.
  destruct hideEmptyCapacity; [lia|]. by destruct (_ <? 0) eqn:Hcmp; lia.
Qed.

(** X12. The table has exactly [capacity] rows when no capacity violation
    is reported, and grows to one row per passenger plus the operator row
    when one is: "Too many passengers" is shown exactly when the row count
    exceeds the capacity. *)
Theorem rowCount_exceeds_capacity_iff_violation (a : VehicleAssignment) (c r : Z) :
  capacityOf a = Some c ->
  rowCountOf a = Some r ->
  (infoMessageOf a = Some (Some tooManyPassengers) <-> c < r) /\
  (infoMessageOf a = Some (Some tooManyPassengers) -> r = passengers a + 1) /\
  (infoMessageOf a ≠ Some (Some tooManyPassengers) -> r = c).
Proof.
  intros Hc Hr.
  pose proof (tooManyPassengers_shown_iff a c Hc) as Hviol.
  unfold rowCount in Hr. rewrite Hc in Hr. simpl in Hr. injection Hr as <-.
  split; [|split].
  - rewrite Hviol. lia.
  - intros H%Hviol. lia.
  - intros H. assert (~ passengers a > c - 1) by (by rewrite <- Hviol). lia.
Qed.
(** X13. A passenger sits in a row flagged as error exactly when "Too many
    passengers" is shown and the card has a passenger at all; without that
    message no occupied row is flagged. *)
Theorem occupied_row_flagged_iff_violation (a : VehicleAssignment) (c : Z) :
  capacityOf a = Some c ->
  ((exists row, 1 <= row <= passengers a /\ cellErrorOf a row = Some true) <->
   infoMessageOf a = Some (Some tooManyPassengers) /\ 1 <= passengers a) /\
  (infoMessageOf a ≠ Some (Some tooManyPassengers) ->
   forall row, 1 <= row <= passengers a -> cellErrorOf a row = Some false).
Proof.
  intros Hc. pose proof (tooManyPassengers_shown_iff a c Hc) as Hviol.
  assert (forall row, cellErrorOf a row = Some (c - 1 <? row)) as Hcell.
  { intros row. unfold cellError. by rewrite Hc. }
  split.
  - rewrite Hviol. split.
    + intros (row & Hrow & Hflag). rewrite Hcell in Hflag.
      injection Hflag as Hflag. apply Z.ltb_lt in Hflag. lia.
    + intros [Hgt Hpos]. exists (passengers a). split; [lia|].
      rewrite Hcell. f_equal. apply Z.ltb_lt. lia.
  - intros Hok row Hrow. rewrite Hcell. f_equal. apply Z.ltb_ge.
    assert (~ passengers a > c - 1) by (by rewrite <- Hviol). lia.
Qed.

(** X14. A vehicle without a positive capacity always shows "Too many
    passengers", even with no passenger at all: a car that has no entry, or
    a non-positive entry, in the [remainingCapacity] result, and a balloon
    whose [maxCapacity] is not positive. *)
Theorem no_capacity_always_too_many (a : VehicleAssignment) (v : Vehicle) :
  hideEmptyCapacity = false ->
  vehicle stores a = Some v ->
  (if bool_decide (vehicle_type v = car_type)
   then default 0 (remainingCapacity group !! assignment_id a) <= 0
   else maxCapacity v <= 0) ->
  capacityOf a = Some 0 /\ infoMessageOf a = Some (Some tooManyPassengers).
Proof.
  intros Hhide Hv Hcap.
  assert (capacityOf a = Some 0) as Hc.
  { unfold capacity. rewrite Hv, Hhide. simpl. f_equal.
    destruct (bool_decide (vehicle_type v = car_type));
      destruct (_ <? 0) eqn:Hcmp; lia. }
  split; [done|]. apply (tooManyPassengers_shown_iff a 0 Hc). lia.
Qed.

(** X16. The weight warning is never shown for a car, nor for a vehicle
    whose [maxWeight] is [undefined] or [null]. *)
Theorem weight_warning_needs_declared_balloon_maximum (a : VehicleAssignment) (v : Vehicle) :
  vehicle stores a = Some v ->
  vehicle_type v = car_type \/ maxWeight v = JsUndefined \/ maxWeight v = JsNull ->
  infoMessageOf a ≠ Some (Some weightExceeded).
Proof.
  intros Hv Hno.
  destruct (capacityOf a) as [c|] eqn:Hc;
    [|apply capacity_None in Hc; congruence].
  destruct (infoMessage_cases a v c Hv Hc)
    as [[_ ->] | [_ [(op & _ & _ & ->) | [_ ->]]]]; try discriminate.
  assert (bool_decide (vehicle_type v = balloon_type)
          && notNull (maxWeight v) && gtJs (totalWeight stores a) (maxWeight v)
          = false) as ->; [|discriminate].
  destruct Hno as [Hcar | [Hmw | Hmw]].
  - rewrite Hcar. by rewrite bool_decide_eq_false_2.
  - rewrite Hmw. simpl. by rewrite !andb_false_r.
  - rewrite Hmw. simpl. by rewrite andb_false_r.
Qed.

(** X17. No message at all is shown exactly when the passengers fit, the
    operator is absent or allowed, and the card is not a balloon over its
    declared maximum weight. *)
Theorem no_message_iff_all_checks_pass (a : VehicleAssignment) (v : Vehicle) (c : Z) :
  vehicle stores a = Some v ->
  capacityOf a = Some c ->
  (infoMessageOf a = Some None <->
   passengers a + 1 <= c /\
   (forall op, operatorId a = Some op -> op ∈ allowedOperatorIds v) /\
   ~ (vehicle_type v = balloon_type /\
      exists m, maxWeight v = JsNum m /\
                PrimFloat.ltb m (totalWeight stores a) = true)).
Proof.
  intros Hv Hc.
  destruct (infoMessage_cases a v c Hv Hc)
    as [[Hgt ->] | [Hle [(op & Hop & Hnot & ->) | [Hall ->]]]].
  - split; [discriminate|]. intros [? _]. lia.
  - split; [discriminate|]. intros (_ & Hall & _). exfalso. by apply Hnot, Hall.
  - destruct (bool_decide (vehicle_type v = balloon_type)) eqn:Hty.
    + apply bool_decide_eq_true in Hty.
      destruct (maxWeight v) as [| |m] eqn:Hmw; cbn [notNull gtJs andb].
      * split; [intros _|done]. split; [lia|]. split; [done|].
        by intros (_ & m & ? & _).
      * split; [intros _|done]. split; [lia|]. split; [done|].
        by intros (_ & m & ? & _).
      * destruct (PrimFloat.ltb m (totalWeight stores a)) eqn:Hcmp.
        -- split; [discriminate|].
           intros (_ & _ & Hnot). exfalso. apply Hnot. split; [done|].
           by exists m.
        -- split; [intros _|done].
           split; [lia|]. split; [done|].
           intros (_ & m' & [= <-] & Hgt). congruence.
    + apply bool_decide_eq_false in Hty. cbn [andb].
      split; [intros _|done]. split; [lia|]. split; [done|]. by intros [? _].
Qed.

End VehicleCardInvariants.

Module VehicleCardInvariantExamples.
Import Entities VehicleCard DialogData CardData CardEdgeData.

Example van_without_pool_entry :
  capacity camp nothingLeft false alphaGroup vanEmpty = Some 0 /\
  rowCount camp nothingLeft false alphaGroup vanEmpty = Some 1 /\
  infoMessage camp nothingLeft false alphaGroup vanEmpty
    = Some (Some tooManyPassengers).
Proof. repeat split. Qed.

Example cellError_crowded :
  map (cellError camp fourLeft false alphaGroup alphaCrowded) [1; 2; 3; 4]
  = [Some false; Some false; Some false; Some true].
Proof. reflexivity. Qed.

(** The id [b9] is in neither map. *)
Lemma card_throws_witness :
  infoMessage camp fourLeft false alphaGroup ghost = None /\
  vehicle camp vanSeats = Some van.
Proof.
  destruct (card_throws_iff_vehicle_unknown camp fourLeft false alphaGroup ghost)
    as (_ & _ & Hinfo & _).
  split; [apply Hinfo; split; reflexivity|].
  destruct (card_throws_iff_vehicle_unknown camp fourLeft false alphaGroup vanSeats)
    as (_ & _ & _ & Hcar).
  apply Hcar. reflexivity.
Defined.

(** Alpha with four passengers: capacity 4, five rows. *)
Lemma capacity_and_rowCount_bounds_witness : 0 <= 4 /\ 1 <= 5 /\ 4 <= 5 /\ 4 <= 5 - 1.
Proof.
  exact (capacity_and_rowCount_bounds camp fourLeft false alphaGroup alphaCrowded
           4 5 eq_refl eq_refl).
Defined.

Lemma rowCount_exceeds_capacity_witness :
  infoMessage camp fourLeft false alphaGroup alphaCrowded
    = Some (Some tooManyPassengers) /\
  (infoMessage camp fourLeft false alphaGroup alphaLight
     ≠ Some (Some tooManyPassengers) -> 4 = 4).
Proof.
  split.
  - apply (proj1 (rowCount_exceeds_capacity_iff_violation
                    camp fourLeft false alphaGroup alphaCrowded 4 5 eq_refl eq_refl)).
    lia.
  - apply (proj2 (proj2 (rowCount_exceeds_capacity_iff_violation
                    camp fourLeft false alphaGroup alphaLight 4 4 eq_refl eq_refl))).
Defined.

(** Alpha with four passengers: the fourth row is flagged. *)
Lemma occupied_row_flagged_witness :
  exists row, 1 <= row <= 4 /\
    cellError camp fourLeft false alphaGroup alphaCrowded row = Some true.
Proof.
  apply (proj1 (occupied_row_flagged_iff_violation
                  camp fourLeft false alphaGroup alphaCrowded 4 eq_refl)).
  split; [reflexivity|simpl; lia].
Defined.

(** The empty van when the pool has no entry for it. *)
Lemma no_capacity_witness :
  capacity camp nothingLeft false alphaGroup vanEmpty = Some 0 /\
  infoMessage camp nothingLeft false alphaGroup vanEmpty
    = Some (Some tooManyPassengers).
Proof.
  apply (no_capacity_always_too_many camp nothingLeft false alphaGroup vanEmpty van);
    [reflexivity|reflexivity|].
  vm_compute. discriminate.
Defined.

(** The van is a car; Tiny declares no maximum weight. *)
Lemma weight_warning_witness :
  infoMessage camp fourLeft false alphaGroup vanSeats ≠ Some (Some weightExceeded) /\
  infoMessage camp fourLeft false tinyGroup tinyNoPilot ≠ Some (Some weightExceeded).
Proof.
  split.
  - apply (weight_warning_needs_declared_balloon_maximum
             camp fourLeft false alphaGroup vanSeats van); [reflexivity|].
    left. reflexivity.
  - apply (weight_warning_needs_declared_balloon_maximum
             camp fourLeft false tinyGroup tinyNoPilot tiny); [reflexivity|].
    right. left. reflexivity.
Defined.

(** Alpha with an allowed pilot, two passengers, 235 kg of 300. *)
Lemma no_message_witness :
  infoMessage camp fourLeft false alphaGroup alphaLight = Some None.
Proof.
  apply (no_message_iff_all_checks_pass camp fourLeft false alphaGroup alphaLight
           alpha 4 eq_refl eq_refl).
  split; [simpl; lia|]. split.
  - intros op Hop. injection Hop as <-. in_literal_list.
  - intros (_ & m & Hm & Hgt). injection Hm as <-.
    vm_compute in Hgt. discriminate Hgt.
Defined.

End VehicleCardInvariantExamples.

(** ** Strings: [trim] and [toLowerCase] *)

Section JsStringFacts.
Import JsString JsStringShape.

Lemma lowerChar_idempotent (c : ascii) : lowerChar (lowerChar c) = lowerChar c.
Proof. destruct c as [[] [] [] [] [] [] [] []]; reflexivity. Qed.

Lemma isWhiteSpace_lowerChar (c : ascii) : isWhiteSpace (lowerChar c) = isWhiteSpace c.
Proof. destruct c as [[] [] [] [] [] [] [] []]; reflexivity. Qed.

Lemma toLowerCase_idempotent (s : string) : toLowerCase (toLowerCase s) = toLowerCase s.
Proof.
  induction s as [|c s IH]; simpl; [done|]. by rewrite lowerChar_idempotent, IH.
Qed.

Lemma trimStart_toLowerCase (s : string) :
  trimStart (toLowerCase s) = toLowerCase (trimStart s).
Proof.
  induction s as [|c s IH]; simpl; [done|].
  rewrite isWhiteSpace_lowerChar. by destruct (isWhiteSpace c).
Qed.

Lemma trimEnd_toLowerCase (s : string) :
  trimEnd (toLowerCase s) = toLowerCase (trimEnd s).
Proof.
  induction s as [|c s IH]; simpl; [done|].
  rewrite IH, isWhiteSpace_lowerChar.
  destruct (trimEnd s); simpl; [by destruct (isWhiteSpace c)|done].
Qed.

Lemma trim_toLowerCase (s : string) : trim (toLowerCase s) = toLowerCase (trim s).
Proof. unfold trim. by rewrite trimStart_toLowerCase, trimEnd_toLowerCase. Qed.

Lemma trimStart_startsClean (s : string) : startsClean (trimStart s).
Proof.
  induction s as [|c s IH]; simpl; [done|].
  destruct (isWhiteSpace c) eqn:Hc; [done|]. simpl. done.
Qed.

Lemma trimStart_of_clean (s : string) : startsClean s -> trimStart s = s.
Proof. destruct s as [|c s]; simpl; [done|]. by intros ->. Qed.

Lemma trimEnd_startsClean (s : string) : startsClean s -> startsClean (trimEnd s).
Proof.
  destruct s as [|c s]; simpl; [done|]. intros Hc.
  destruct (trimEnd s); simpl; [by rewrite Hc|done].
Qed.

Lemma trimEnd_idempotent (s : string) : trimEnd (trimEnd s) = trimEnd s.
Proof.
  induction s as [|c s IH]; simpl; [done|].
  destruct (trimEnd s) as [|k kept] eqn:Hs.
  - destruct (isWhiteSpace c) eqn:Hc; simpl; [done|]. by rewrite Hc.
  - change (trimEnd (String c (String k kept))) with
      (match trimEnd (String k kept) with
       | EmptyString =>
           if isWhiteSpace c then EmptyString else String c EmptyString
       | String k' kept' => String c (String k' kept')
       end).
    by rewrite IH.
Qed.

Lemma trim_idempotent (s : string) : trim (trim s) = trim s.
Proof.
  unfold trim.
  rewrite (trimStart_of_clean (trimEnd (trimStart s)))
    by apply trimEnd_startsClean, trimStart_startsClean.
  apply trimEnd_idempotent.
Qed.
End JsStringFacts.

(** ** The balloon dialog: names, rules, options *)

Section EditBalloonFormFacts.
Import JsArray JsString JsSort Entities EditBalloonDialog EditBalloonForm.

Lemma nameIsUnique_same_key (b : option Vehicle) (names : option (list string))
    (name other : string) :
  toLowerCase (trim other) = toLowerCase (trim name) ->
  nameIsUnique b names other = nameIsUnique b names name.
Proof. intros Hkey. unfold nameIsUnique. by rewrite Hkey. Qed.

(** X20. [nameIsUnique] ignores the case of the candidate and white space
    around it, and the case of the existing names: the verdict for a
    candidate, for its lowercased form and for its trimmed form is the same,
    and lowercasing every entry of [existingNames] does not change it. *)
Theorem nameIsUnique_ignores_case_and_padding
    (b : option Vehicle) (names : list string) (existing : option (list string))
    (name : string) :
  nameIsUnique b existing (toLowerCase name) = nameIsUnique b existing name /\
  nameIsUnique b existing (trim name) = nameIsUnique b existing name /\
  nameIsUnique b (Some (map toLowerCase names)) name
    = nameIsUnique b (Some names) name.
Proof.
  split; [|split].
  - apply nameIsUnique_same_key.
    by rewrite trim_toLowerCase, toLowerCase_idempotent.
  - apply nameIsUnique_same_key. by rewrite trim_idempotent.
  - unfold nameIsUnique. destruct (match b with Some _ => _ | None => _ end); [done|].
    f_equal. unfold some. induction names as [|e names IH]; [done|].
    simpl. by rewrite toLowerCase_idempotent, IH.
Qed.

(** [onSubmit] throws exactly when no name was ever entered; otherwise
    the payload is a balloon whose name is the entered name trimmed (so
    trimming it again changes nothing) and whose [maxWeight] is never
    [null]: a cleared field is submitted as [undefined], any other value as
    it is. *)
Lemma onSubmit_payload (name : option string) (maxCapacity maxWeight : JsNumber)
    (allowed : list string) :
  (onSubmit name maxCapacity maxWeight allowed = None <-> name = None) /\
  (forall p, onSubmit name maxCapacity maxWeight allowed = Some p ->
     payload_type p = balloon_type /\
     (exists n, name = Some n /\ payload_name p = trim n) /\
     trim (payload_name p) = payload_name p /\
     payload_maxWeight p ≠ JsNull /\
     (maxWeight ≠ JsNull -> payload_maxWeight p = maxWeight) /\
     (maxWeight = JsNull -> payload_maxWeight p = JsUndefined) /\
     payload_maxCapacity p = maxCapacity /\
     payload_allowedOperatorIds p = allowed).
Proof.
  unfold onSubmit. destruct name as [n|]; simpl.
  - split; [done|]. intros p [= <-]. simpl.
    split; [done|]. split; [by exists n|]. split; [apply trim_idempotent|].
    by destruct maxWeight.
  - done.
Qed.

(** X21. A balloon that carries the name the dialog submitted is accepted
    by [nameIsUnique] when it is edited again, both under its saved name and
    under the text that was originally typed, whatever [existingNames]
    holds. *)
Theorem submitted_name_is_accepted_on_edit
    (typed : string) (maxCapacity maxWeight : JsNumber) (allowed : list string)
    (p : BalloonPayload) (b : Vehicle) (existing : option (list string)) :
  onSubmit (Some typed) maxCapacity maxWeight allowed = Some p ->
  vehicle_name b = payload_name p ->
  nameIsUnique (Some b) existing (vehicle_name b) = true /\
  nameIsUnique (Some b) existing typed = true.
Proof.
  intros [= <-] Hname. simpl in Hname.
  assert (forall candidate,
             toLowerCase (trim candidate) = toLowerCase (vehicle_name b) ->
             nameIsUnique (Some b) existing candidate = true) as Hown.
  { intros candidate Hkey. unfold nameIsUnique.
    by rewrite bool_decide_eq_true_2. }
  split; apply Hown.
  - by rewrite Hname, trim_idempotent.
  - by rewrite Hname.
Qed.

(** X22. What the rules accept: the name rule exactly the non-empty
    strings; the capacity rule exactly the positive numbers; the weight rule
    everything except negative numbers, so an unset weight and the weight 0
    pass. *)
Theorem rules_accept (name : option string) (n : JsNumber) :
  (nameRequired name = Valid <-> exists s, name = Some s /\ s ≠ "") /\
  (maxCapacityRequired n = Valid <-> exists z, n = JsNum z /\ 0 < z) /\
  (maxWeightPositive n = Valid <-> ~ exists z, n = JsNum z /\ z < 0).
Proof.
  split; [|split].
  - unfold nameRequired. destruct name as [s|].
    + destruct (decide (s = "")) as [->|Hs].
      * simpl. split; [discriminate|]. by intros (s & [= <-] & ?).
      * rewrite bool_decide_eq_false_2 by done. simpl.
        destruct s as [|c s]; [done|]. simpl.
        split; [intros _|done]. by eexists.
    + split; [discriminate|]. by intros (s & ? & _).
  - unfold maxCapacityRequired. destruct n as [| |z]; simpl.
    + split; [discriminate|]. by intros (z & ? & _).
    + split; [discriminate|]. by intros (z & ? & _).
    + destruct (z =? 0) eqn:Hz; destruct (0 <? z) eqn:Hpos; simpl.
      * lia.
      * split; [discriminate|]. intros (z' & [= <-] & ?). lia.
      * split; [intros _|done]. exists z. split; [done|lia].
      * split; [discriminate|]. intros (z' & [= <-] & ?). lia.
  - unfold maxWeightPositive. destruct n as [| |z]; simpl.
    + split; [intros _|done]. by intros (z & ? & _).
    + split; [intros _|done]. by intros (z & ? & _).
    + destruct (z =? 0) eqn:Hz; destruct (0 <? z) eqn:Hpos; simpl.
      * lia.
      * split; [intros _|done]. intros (z' & [= <-] & ?). lia.
      * split; [intros _|done]. intros (z' & [= <-] & ?). lia.
      * split; [discriminate|]. intros Hno. exfalso. apply Hno.
        exists z. split; [done|lia].
Qed.
End EditBalloonFormFacts.

(** ** Sorting with a comparator *)

Section JsSortFacts.
Import JsSort.
Context {A : Type}.
Variable compareFn : A -> A -> Z.

Lemma insertSorted_permutation (x : A) (l : list A) :
  insertSorted compareFn x l ≡ₚ x :: l.
Proof.
  induction l as [|y l IH]; simpl; [done|].
  destruct (compareFn x y <=? 0); [done|].
  rewrite IH. apply perm_swap.
Qed.

Lemma sort_permutation (l : list A) : sort compareFn l ≡ₚ l.
Proof.
  induction l as [|x l IH]; simpl; [done|].
  by rewrite insertSorted_permutation, IH.
Qed.

Lemma head_insertSorted (x : A) (l : list A) :
  head (insertSorted compareFn x l) =
    match head l with
    | None => Some x
    | Some y => if compareFn x y <=? 0 then Some x else Some y
    end.
Proof. destruct l as [|y l]; simpl; [done|]. by destruct (_ <=? 0). Qed.

Lemma sort_nil_iff (l : list A) : sort compareFn l = [] <-> l = [].
Proof.
  split; [|by intros ->]. intros Hs.
  symmetry. apply Permutation_nil_l. rewrite <- Hs. apply sort_permutation.
Qed.
End JsSortFacts.

(** ** The operator options of the balloon dialog *)

Section OperatorOptionsFacts.
Import JsArray JsString JsSort Entities EditBalloonForm.
Variable localeCompare : string -> string -> Z.
Variable people : list RosterPerson.

Local Abbreviation options := (operatorOptions localeCompare people).
Local Abbreviation filtered val := (filterFn localeCompare people val).

Lemma indexOf_empty_needle (s : string) : indexOf s "" = 0.
Proof. unfold indexOf. by destruct s. Qed.

(** X23. Whatever the locale's collation, the operator options are exactly
    the counselors of the roster, each once per roster entry, labelled with
    the name and valued with the id: a person with another role is never
    offered, and every counselor is. *)
Theorem operatorOptions_are_the_counselors :
  options ≡ₚ
    map (fun p => {| label := person_name (person p); value := person_id (person p) |})
      (filter (fun p => role p = "counselor") people) /\
  length options = length (filter (fun p => role p = "counselor") people) /\
  (forall o, o ∈ options <->
     exists p, p ∈ people /\ role p = "counselor" /\
               label o = person_name (person p) /\ value o = person_id (person p)).
Proof.
  assert (options ≡ₚ
            map (fun p => {| label := person_name (person p);
                             value := person_id (person p) |})
              (filter (fun p => role p = "counselor") people)) as Hperm.
  { unfold operatorOptions. apply Permutation_map, sort_permutation. }
  split; [done|]. split.
  - rewrite Hperm. by rewrite length_map.
  - intros o. rewrite Hperm. rewrite list_elem_of_fmap. split.
    + intros (p & -> & Hp). apply list_elem_of_filter in Hp as [Hrole Hp].
      by exists p.
    + intros (p & Hp & Hrole & Hlabel & Hvalue). exists p. split.
      * destruct o. simpl in *. by subst.
      * by apply list_elem_of_filter.
Qed.

(** X24. Typing in the operator select narrows the options without
    reordering or inventing any: the filtered list is a sublist of the
    options, the empty text keeps them all, and the case of the typed text is
    ignored. *)
Theorem filterFn_narrows_the_options (val : string) :
  filtered val `sublist_of` options /\
  filtered "" = options /\
  filtered (toLowerCase val) = filtered val.
Proof.
  unfold filterFn. split; [apply sublist_filter|]. split.
  - simpl. induction options as [|o os IH]; [done|].
    rewrite filter_cons_True by (rewrite indexOf_empty_needle; lia).
    by rewrite IH.
  - by rewrite toLowerCase_idempotent.
Qed.
End OperatorOptionsFacts.

(** ** The message badge *)

Section MessageBadgeFacts.
Import JsSort MessageBadges.

(** X25. The badge shows nothing exactly when there are no messages.
    Otherwise it shows the first of the messages with the lowest priority
    number: every message before it has a strictly higher number, every
    message after it a number at least as high. *)
Theorem priorityMessage_is_first_minimum (messages : list MessageBadge) :
  (priorityMessage messages = None <-> messages = []) /\
  (forall m, priorityMessage messages = Some m ->
     exists before after,
       messages = (before ++ m :: after)%list /\
       (forall y, y ∈ before -> priority m < priority y) /\
       (forall y, y ∈ after -> priority m <= priority y)).
Proof.
  unfold priorityMessage. split.
  - rewrite head_None. apply sort_nil_iff.
  - induction messages as [|x l IH]; intros m; [done|].
    simpl. rewrite head_insertSorted.
    destruct (head (sort _ l)) as [y|] eqn:Hhead.
    + destruct (IH y eq_refl) as (before & after & -> & Hbefore & Hafter).
      destruct (priority x - priority y <=? 0) eqn:Hcmp; intros [= <-].
      * exists [], (before ++ y :: after)%list. split; [done|].
        split; [by intros ? ?%elem_of_nil|].
        intros z Hz. apply elem_of_app in Hz as [Hz|Hz].
        -- specialize (Hbefore z Hz). lia.
        -- apply elem_of_cons in Hz as [->|Hz]; [lia|].
           specialize (Hafter z Hz). lia.
      * exists (x :: before), after. split; [done|]. split; [|done].
        intros z Hz. apply elem_of_cons in Hz as [->|Hz]; [lia|].
        by apply Hbefore.
    + apply head_None, sort_nil_iff in Hhead. subst l. intros [= <-].
      exists [], []. split; [done|]. split; by intros ? ?%elem_of_nil.
Qed.
End MessageBadgeFacts.

(** ** The drop zone *)

Section DropZoneFacts.
Import DropZone.
Variables Identifiable DragEvent : Type.
Variable accepted : Identifiable -> bool.
Variable verifyDrop : DragEvent -> bool.

Local Abbreviation isAccepted := (isAccepted Identifiable accepted).
Local Abbreviation handle := (handle Identifiable DragEvent accepted verifyDrop).
Local Abbreviation run := (run Identifiable DragEvent accepted verifyDrop).
Local Abbreviation Step := (Step Identifiable DragEvent).

Lemma run_app (l1 l2 : list Step) (h : bool) :
  run (l1 ++ l2) h =
    ((run l2 (run l1 h).1).1, ((run l1 h).2 ++ (run l2 (run l1 h).1).2)%list).
Proof.
  revert h. induction l1 as [|s l1 IH]; intros h; simpl.
  - by destruct (run l2 h).
  - destruct (handle s h) as [h1 e]. rewrite IH.
    destruct (run l1 h1) as [h2 es]. simpl. by destruct (run l2 h2).
Qed.

Lemma run_singleton (s : Step) (h : bool) : run [s] h = ((handle s h).1, [(handle s h).2]).
Proof. simpl. by destruct (handle s h). Qed.

(** X26. The zone emits [dropped] only from a drop: an event emits the
    element [x] exactly when it is a drop, [x] is the element being dragged,
    the zone accepts [x] and [DragHelper.verifyDrop] approves the event.  A
    drop or a leave always ends without highlight. *)
Theorem dropped_only_for_accepted_verified_drop (s : Step) (h : bool) (x : Identifiable) :
  (dropped (handle s h).2 = Some x <->
   kind s = drop /\ dragged s = Some x /\ accepted x = true /\
   verifyDrop (event s) = true) /\
  (kind s = drop \/ kind s = dragleave -> (handle s h).1 = false).
Proof.
  unfold DropZone.handle, onDragEnter, onDragOver, onDragLeave, onDrop.
  destruct (kind s) eqn:Hkind.
  - split; [|by intros [|]]. destruct (negb _); simpl; split; try done; by intros [? _].
  - split; [|by intros [|]]. destruct (negb _); simpl; split; try done; by intros [? _].
  - split; [|done]. simpl. split; [done|]. by intros [? _].
  - split.
    + destruct (dragged s) as [e|] eqn:Hdragged; simpl.
      * destruct (accepted e) eqn:Hacc; destruct (verifyDrop (event s)) eqn:Hver;
          simpl; split; try done.
        -- intros [= <-]. done.
        -- by intros (_ & [= <-] & _ & _).
        -- by intros (_ & _ & _ & ?).
        -- intros (_ & [= <-] & ? & _). congruence.
        -- intros (_ & [= <-] & ? & _). congruence.
      * split; [done|]. by intros (_ & ? & _).
    + intros _. by destruct (negb _ || negb _).
Qed.

(** X27. The highlight follows the last decisive event of any sequence: a
    leave or a drop clears it, an enter or over of an accepted element sets
    it (and calls [preventDefault]), and an enter or over of anything else
    leaves it as the earlier events made it. *)
Theorem highlight_follows_last_decisive_event (steps : list Step) (s : Step) (h : bool) :
  let after := (run (steps ++ [s]) h).1 in
  (kind s = dragleave \/ kind s = drop -> after = false) /\
  (kind s = dragenter \/ kind s = dragover ->
   (isAccepted (dragged s) = true ->
    after = true /\ preventedDefault (handle s (run steps h).1).2 = true) /\
   (isAccepted (dragged s) = false ->
    after = (run steps h).1 /\ preventedDefault (handle s (run steps h).1).2 = false)).
Proof.
  intros after. subst after. rewrite run_app, run_singleton. cbn [fst].
  unfold DropZone.handle, onDragEnter, onDragOver, onDragLeave, onDrop.
  destruct (kind s); split; try (by intros [|]).
  - intros _. split; intros ->; done.
  - intros _. split; intros ->; done.
  - intros _. by destruct (negb _ || negb _).
Qed.

(** X28. A zone that starts without highlight and never sees an accepted
    element stays inert over any sequence of events: it is not highlighted
    afterwards, nothing is ever dropped, and [preventDefault] is called by
    the leave events only, so the browser never offers the zone as a drop
    target. *)
Theorem zone_is_inert_without_accepted_element (steps : list Step) :
  Forall (fun s => isAccepted (dragged s) = false) steps ->
  (run steps false).1 = false /\
  Forall (fun e => dropped e = None) (run steps false).2 /\
  Forall2 (fun s e => preventedDefault e = true <-> kind s = dragleave)
    steps (run steps false).2.
Proof.
  induction 1 as [|s steps Hs _ IH]; [done|].
  simpl.
  assert (handle s false =
            (false, {| preventedDefault :=
                         match kind s with dragleave => true | _ => false end;
                       dropped := None |})) as ->.
  { unfold DropZone.handle, onDragEnter, onDragOver, onDragLeave, onDrop.
    destruct (kind s); rewrite ?Hs; done. }
  destruct (run steps false) as [h es]. simpl in *.
  destruct IH as (-> & Hdropped & Hprevented).
  split; [done|]. split; constructor; try done.
  simpl. by destruct (kind s).
Qed.
End DropZoneFacts.

Module DialogAndWidgetExamples.
Import JsString Entities EditBalloonDialog EditBalloonForm DropZone MessageBadges.
Import DialogData CardData FormData ZoneData BadgeData.

Example operatorOptions_roster :
  operatorOptions codeCompare roster =
    [{| label := "Ben"; value := "Ben" |};
     {| label := "anna"; value := "anna" |};
     {| label := "cleo"; value := "cleo" |}].
Proof. reflexivity. Qed.

Example filterFn_roster :
  filterFn codeCompare roster "N" =
    [{| label := "Ben"; value := "Ben" |}; {| label := "anna"; value := "anna" |}].
Proof. reflexivity. Qed.

Example indexOf_examples :
  indexOf "anna" "nn" = 1 /\ indexOf "anna" "x" = -1 /\ indexOf "" "" = 0.
Proof. repeat split. Qed.

Example rules_on_zero :
  maxCapacityRequired (JsNum 0) = Invalid "Maximum Capacity is required." /\
  maxWeightPositive (JsNum 0) = Valid /\
  maxWeightPositive (JsNum (-5)) = Invalid "Max weight must be greater than 0.".
Proof. repeat split. Qed.

Example sort_is_stable :
  JsSort.sort (fun a b => priority a - priority b) threeMessages
  = [badge 1 "capacity"; badge 1 "operator"; badge 2 "weight"].
Proof. reflexivity. Qed.

Example zone_run_person :
  run string bool takesPeople approved
    [step dragenter true (Some "person:dan"); step drop true (Some "person:dan")]
    false
  = (false,
     [{| preventedDefault := true; dropped := None |};
      {| preventedDefault := false; dropped := Some "person:dan" |}]).
Proof. reflexivity. Qed.

(** Submitting " Alpha " with the weight field cleared. *)
Lemma onSubmit_payload_witness :
  exists p, onSubmit (Some " Alpha ") (JsNum 4) JsNull ["anna"] = Some p /\
            payload_name p = "Alpha" /\ payload_maxWeight p = JsUndefined.
Proof.
  eexists. split; [reflexivity|].
  destruct (onSubmit_payload (Some " Alpha ") (JsNum 4) JsNull ["anna"]) as (_ & Hp).
  destruct (Hp _ eq_refl) as (_ & (n & Hn & Hname) & _ & _ & _ & Hnull & _).
  injection Hn as <-. split; [exact Hname|exact (Hnull eq_refl)].
Defined.

(** The balloon "Alpha" was saved from the text " Alpha ". *)
Lemma submitted_name_witness :
  nameIsUnique (Some alpha) (Some balloonNames) "Alpha" = true /\
  nameIsUnique (Some alpha) (Some balloonNames) " Alpha " = true.
Proof.
  apply (submitted_name_is_accepted_on_edit " Alpha " (JsNum 4) JsNull ["anna"]
           {| payload_type := balloon_type; payload_name := "Alpha";
              payload_maxCapacity := JsNum 4; payload_maxWeight := JsUndefined;
              payload_allowedOperatorIds := ["anna"] |} alpha);
    reflexivity.
Defined.

(** Of three messages the first with priority 1 is shown. *)
Lemma priorityMessage_witness :
  exists before after,
    threeMessages = (before ++ badge 1 "capacity" :: after)%list /\
    (forall y, y ∈ before -> 1 < priority y) /\
    (forall y, y ∈ after -> 1 <= priority y).
Proof.
  apply (proj2 (priorityMessage_is_first_minimum threeMessages)
           (badge 1 "capacity") eq_refl).
Defined.

(** Dropping Dan on a zone that takes people. *)
Lemma dropped_witness :
  dropped (handle string bool takesPeople approved
             (step drop true (Some "person:dan")) true).2
  = Some "person:dan".
Proof.
  apply (proj1 (dropped_only_for_accepted_verified_drop string bool takesPeople
                  approved (step drop true (Some "person:dan")) true "person:dan")).
  repeat split.
Defined.

(** Dan enters the zone after a car was dragged around. *)
Lemma highlight_witness :
  (run string bool takesPeople approved
     (carDraggedAround ++ [step dragenter true (Some "person:dan")]) false).1 = true.
Proof.
  destruct (highlight_follows_last_decisive_event string bool takesPeople approved
              carDraggedAround (step dragenter true (Some "person:dan")) false)
    as (_ & Hset).
  destruct (Hset (or_introl eq_refl)) as (Haccepted & _).
  exact (proj1 (Haccepted eq_refl)).
Defined.

(** A car dragged over, dropped on and out of a zone that takes people. *)
Lemma zone_is_inert_witness :
  (run string bool takesPeople approved carDraggedAround false).1 = false /\
  Forall (fun e => dropped e = None)
    (run string bool takesPeople approved carDraggedAround false).2.
Proof.
  destruct (zone_is_inert_without_accepted_element string bool takesPeople approved
              carDraggedAround) as (Hh & Hd & _).
  - repeat constructor.
  - split; [exact Hh|exact Hd].
Defined.

End DialogAndWidgetExamples.
